(** * The local cluster of platform/local/cluster.go

    A shallow embedding of [LocalCluster] and its five operations
    ([NewLocalCluster], [NewCommand], [EtcdEndpoint], [NewTap], [Destroy]).

    Go pointers are [option]s ([None] is nil), a Go [error] is an
    [option error] ([None] is nil), a Go run-time panic is the [Panicked]
    outcome.  Calls that leave the file (namespace, netlink, dnsmasq, etcd,
    SSH agent) are recorded in a trace and answered by an environment. *)

From Stdlib Require Import ZArith NArith List String Ascii Bool Lia.
From Stdlib Require Import Strings.Byte DecimalString HexadecimalString.
Import ListNotations.
Local Open Scope string_scope.
Local Open Scope Z_scope.

(** ** Go values used by the file *)

(** An error value is identified with the text of its [Error()] method. *)
Definition error := string.

(** [netns.NsHandle] is an [int]. *)
Definition NsHandle := Z.

(** What a panic carries. *)
Inductive PanicValue : Type :=
| PanicString (msg : string)          (* panic("...") *)
| NilDereference                      (* field access through a nil pointer *)
| IndexOutOfRange (i len : nat)       (* s[i] with len(s) <= i *)
| TypeAssertion (want : string).      (* x.(T) on a value of another type *)

(** How a Go function ends. *)
Inductive Res (A : Type) : Type :=
| Returned (a : A)
| Panicked (p : PanicValue).
Arguments Returned {A} a.
Arguments Panicked {A} p.

(** The outcome of a call returning [(T, error)]: a value with a nil error,
    or a non-nil error. *)
Inductive Result (A : Type) : Type :=
| Ok (a : A)
| Err (e : error).
Arguments Ok {A} a.
Arguments Err {A} e.

(** ** Formatting ([fmt] and [net]) *)

Module Fmt.

(** The verb [%d] on an [int]. *)
Definition d (n : Z) : string := DecimalString.NilZero.string_of_int (Z.to_int n).

(** Decimal text of a byte. *)
Definition ubyte (b : byte) : string :=
  DecimalString.NilZero.string_of_uint (N.to_uint (Byte.to_N b)).

(** Lower-case hexadecimal text without leading zeros. *)
Definition hex (n : N) : string :=
  HexadecimalString.NilZero.string_of_uint (N.to_hex_uint n).

(** Two hexadecimal digits of a byte. *)
Definition hex2 (b : byte) : string :=
  let n := Byte.to_N b in
  hex (N.div n 16) ++ hex (N.modulo n 16).

Fixpoint join (sep : string) (l : list string) : string :=
  match l with
  | [] => ""
  | [s] => s
  | s :: rest => s ++ sep ++ join sep rest
  end.

End Fmt.

Module Net.

(** [net.IP] is a byte slice of length 4 or 16. *)
Definition IP := list byte.

Definition is_zero (b : byte) : bool := Byte.eqb b x00.

(** [net.IPv4(a, b, c, d)]: the 16-byte form of an IPv4 address. *)
Definition IPv4 (a b c d : byte) : IP :=
  [x00; x00; x00; x00; x00; x00; x00; x00; x00; x00; xff; xff; a; b; c; d].

(** [ip.To4()]: the 4-byte form, or nil when [ip] is not an IPv4 address. *)
Definition To4 (ip : IP) : IP :=
  if Nat.eqb (List.length ip) 4 then ip
  else if Nat.eqb (List.length ip) 16
          && forallb is_zero (firstn 10 ip)
          && Byte.eqb (nth 10 ip x00) xff
          && Byte.eqb (nth 11 ip x00) xff
       then skipn 12 ip
       else [].

(** The 16-bit groups of a 16-byte address. *)
Fixpoint groups (ip : list byte) : list N :=
  match ip with
  | hi :: lo :: rest => (Byte.to_N hi * 256 + Byte.to_N lo)%N :: groups rest
  | _ => []
  end.

Fixpoint zero_run (gs : list N) : nat :=
  match gs with
  | 0%N :: rest => S (zero_run rest)
  | _ => O
  end.

(** Start and length of the first longest run of zero groups. *)
Fixpoint longest_run (gs : list N) (i : nat) (best : nat * nat) : nat * nat :=
  match gs with
  | [] => best
  | _ :: rest =>
      let n := zero_run gs in
      longest_run rest (S i) (if Nat.ltb (snd best) n then (i, n) else best)
  end.

(** The IPv6 text form: a run of two or more zero groups becomes [::]. *)
Definition String6 (ip : IP) : string :=
  let gs := groups ip in
  let '(e0, n) := longest_run gs O (O, O) in
  if Nat.leb n 1 then Fmt.join ":" (map Fmt.hex gs)
  else Fmt.join ":" (map Fmt.hex (firstn e0 gs)) ++ "::"
       ++ Fmt.join ":" (map Fmt.hex (skipn (e0 + n) gs)).

(** [ip.String()], which the verb [%s] uses for a [net.IP]. *)
Definition String (ip : IP) : string :=
  match ip with
  | [] => "<nil>"
  | _ =>
      match To4 ip with
      | [a; b; c; d] =>
          Fmt.ubyte a ++ "." ++ Fmt.ubyte b ++ "." ++ Fmt.ubyte c ++ "." ++ Fmt.ubyte d
      | _ =>
          if Nat.eqb (List.length ip) 16 then String6 ip
          else "?" ++ String.concat "" (map Fmt.hex2 ip)
      end
  end.

(** [net.IPNet]; only the address is read here. *)
Record IPNet : Type := { IP_ : IP; Mask : list byte }.

End Net.

(** ** The collaborators' data

    The declarations of [Dnsmasq], [Segment], [Interface], [SimpleEtcd],
    [network.SSHAgent] and [TunTap] are outside cluster.go; the records
    below carry the fields cluster.go reads, under the names it uses. *)

Record Interface : Type := { DHCPv4 : list Net.IPNet }.

Record Segment : Type := { BridgeName : string; BridgeIf : Interface }.

Record Dnsmasq_t : Type := { Segments : list Segment }.

Record SimpleEtcd_t : Type := { Port : Z }.

Record SSHAgent_t : Type := { Socket : string }.

Record LocalCluster : Type := {
  SSHAgent : option SSHAgent_t;
  Dnsmasq : option Dnsmasq_t;
  SimpleEtcd : option SimpleEtcd_t;
  nshandle : NsHandle
}.

(** [&LocalCluster{}]: nil pointers and the zero handle. *)
Definition LocalCluster_zero : LocalCluster :=
  {| SSHAgent := None; Dnsmasq := None; SimpleEtcd := None; nshandle := 0 |}.

(** ** EtcdEndpoint *)

(** The body of the [range] loop over the segments, with the arguments of
    [Sprintf] evaluated left to right. *)
Fixpoint EtcdEndpoint_range (bridge : string) (etcd : option SimpleEtcd_t)
    (segs : list Segment) : Res string :=
  match segs with
  | [] => Panicked (PanicString "Not a valid bridge!")
  | seg :: rest =>
      if String.eqb bridge (BridgeName seg) then
        match DHCPv4 (BridgeIf seg) with
        | [] => Panicked (IndexOutOfRange 0 0)
        | lease :: _ =>
            match etcd with
            | None => Panicked NilDereference
            | Some e =>
                Returned ("http://" ++ Net.String (Net.IP_ lease) ++ ":" ++ Fmt.d (Port e))
            end
        end
      else EtcdEndpoint_range bridge etcd rest
  end.

Definition EtcdEndpoint (lc : LocalCluster) : Res string :=
  let bridge := "br0" in
  match Dnsmasq lc with
  | None => Panicked NilDereference
  | Some dm => EtcdEndpoint_range bridge (SimpleEtcd lc) (Segments dm)
  end.

(** ** The world outside the file *)

(** [NewNsDialer(ns)] only wraps the handle. *)
Record NsDialer : Type := { DialerNs : NsHandle }.

Definition NewNsDialer (ns : NsHandle) : NsDialer := {| DialerNs := ns |}.

Record TunTap : Type := { TapName : string; TapIndex : Z }.

Record Bridge : Type := { BridgeLinkName : string; BridgeIndex : Z }.

(** A [netlink.Link] is an interface value: a [*netlink.Bridge], or a link
    of another dynamic type (named by its [Type()], such as veth). *)
Inductive Link : Type :=
| LinkBridge (b : Bridge)
| LinkOther (type name : string).

(** A command description; cluster.go touches only [Env]. *)
Record Cmd : Type := {
  Name : string;
  Args : list string;
  Env : list string;
  CmdNs : NsHandle
}.

Definition set_Env (cmd : Cmd) (env : list string) : Cmd :=
  {| Name := Name cmd; Args := Args cmd; Env := env; CmdNs := CmdNs cmd |}.

(** The calls cluster.go makes to its collaborators. *)
Inductive Call : Type :=
| CallNsCreate
| CallNewSSHAgent (dialer : NsDialer)
| CallNsEnter (ns : NsHandle)
| CallNsExit
| CallNewDnsmasq
| CallNewSimpleEtcd
| CallSimpleEtcdDestroy (e : SimpleEtcd_t)
| CallDnsmasqDestroy (d : Dnsmasq_t)
| CallSSHAgentClose (a : SSHAgent_t)
| CallNsHandleClose (ns : NsHandle)
| CallNewNsCommand (ns : NsHandle) (name : string) (arg : list string)
| CallAddLinkTap (name : string)
| CallLinkSetUp (tap : TunTap)
| CallLinkByName (name : string)
| CallLinkSetMaster (tap : TunTap) (br : Bridge).

(** What the collaborators answer.  For a call returning only an error,
    [None] is nil. *)
Record Collaborators : Type := {
  on_NsCreate : Result NsHandle;
  on_NewSSHAgent : NsDialer -> Result SSHAgent_t;
  on_NsEnter : NsHandle -> option error;
  on_NewDnsmasq : Result Dnsmasq_t;
  on_NewSimpleEtcd : Result SimpleEtcd_t;
  on_SimpleEtcdDestroy : SimpleEtcd_t -> option error;
  on_DnsmasqDestroy : Dnsmasq_t -> option error;
  on_SSHAgentClose : SSHAgent_t -> option error;
  on_NsHandleClose : NsHandle -> option error;
  on_NewNsCommand : NsHandle -> string -> list string -> Cmd;
  on_AddLinkTap : string -> Result TunTap;
  on_LinkSetUp : TunTap -> option error;
  on_LinkByName : string -> Result Link;
  on_LinkSetMaster : TunTap -> Bridge -> option error
}.

(** The operating-system resources a cluster holds. *)
Inductive Resource : Type :=
| ResNamespace
| ResSSHAgent
| ResDnsmasq
| ResSimpleEtcd
| ResTap.

Definition Resource_eqb (a b : Resource) : bool :=
  match a, b with
  | ResNamespace, ResNamespace
  | ResSSHAgent, ResSSHAgent
  | ResDnsmasq, ResDnsmasq
  | ResSimpleEtcd, ResSimpleEtcd
  | ResTap, ResTap => true
  | _, _ => false
  end.

(** The state the calls act on: the calls made so far (oldest first), the
    namespace the executing thread is bound to, and the live resources. *)
Record World : Type := {
  trace : list Call;
  cur_ns : NsHandle;
  live : list Resource
}.

Definition log (c : Call) (w : World) : World :=
  {| trace := (trace w ++ [c])%list; cur_ns := cur_ns w; live := live w |}.

Definition acquire (r : Resource) (w : World) : World :=
  {| trace := trace w; cur_ns := cur_ns w; live := (live w ++ [r])%list |}.

Definition release (r : Resource) (w : World) : World :=
  {| trace := trace w; cur_ns := cur_ns w;
     live := filter (fun x => negb (Resource_eqb r x)) (live w) |}.

Definition bind_ns (ns : NsHandle) (w : World) : World :=
  {| trace := trace w; cur_ns := ns; live := live w |}.

(** ** A monad for Go function bodies: collaborators, world, panics *)

Definition M (A : Type) : Type := Collaborators -> World -> Res A * World.

Definition ret {A} (a : A) : M A := fun _ w => (Returned a, w).

Definition bind {A B} (m : M A) (k : A -> M B) : M B := fun o w =>
  match m o w with
  | (Returned a, w') => k a o w'
  | (Panicked p, w') => (Panicked p, w')
  end.

Definition panic {A} (p : PanicValue) : M A := fun _ w => (Panicked p, w).

(** [defer f()]: [f] runs when the body ends, by return or by panic; its
    result is dropped. *)
Definition defer {A B} (f : M B) (body : M A) : M A := fun o w =>
  let '(r, w1) := body o w in
  (r, snd (f o w1)).

Declare Scope go_scope.
Delimit Scope go_scope with go.
Notation "x <- c ;; k" := (bind c (fun x => k))
  (at level 100, c at next level, right associativity) : go_scope.
Notation "c ;;; k" := (bind c (fun _ => k))
  (at level 100, right associativity) : go_scope.
Local Open Scope go_scope.

(** Run a body from a world and keep the result, or the final world. *)
Definition result_of {A} (m : M A) (o : Collaborators) (w : World) : Res A :=
  fst (m o w).

Definition world_after {A} (m : M A) (o : Collaborators) (w : World) : World :=
  snd (m o w).

(** ** The collaborators' operations *)

(** Modelled from the spec: [NsCreate] (not in cluster.go) allocates a new
    network namespace and returns its handle, or fails with an error and
    allocates nothing. *)
Definition NsCreate : M (Result NsHandle) := fun o w =>
  let w := log CallNsCreate w in
  match on_NsCreate o with
  | Ok h => (Returned (Ok h), acquire ResNamespace w)
  | Err e => (Returned (Err e), w)
  end.

(** Modelled from the spec: the release function that [NsEnter] (not in
    cluster.go) returns restores the namespace association that was in
    force when the scope was entered. *)
Definition nsExit_to (orig : NsHandle) : M (option error) := fun _ w =>
  (Returned None, bind_ns orig (log CallNsExit w)).

(** Modelled from the spec: [NsEnter] (not in cluster.go) binds the current
    execution context to the given namespace and returns a release function;
    when it fails the association is unchanged. *)
Definition NsEnter (ns : NsHandle) : M (Result (M (option error))) := fun o w =>
  let w := log (CallNsEnter ns) w in
  match on_NsEnter o ns with
  | None => (Returned (Ok (nsExit_to (cur_ns w))), bind_ns ns w)
  | Some e => (Returned (Err e), w)
  end.

(** Modelled from the spec: closing the handle (netns, not in cluster.go)
    releases the namespace and reports an error or nil. *)
Definition NsHandle_Close (ns : NsHandle) : M (option error) := fun o w =>
  (Returned (on_NsHandleClose o ns), release ResNamespace (log (CallNsHandleClose ns) w)).

(** Modelled from the spec: a service's start (not in cluster.go) spawns
    its subprocess or listener and returns a handle, or fails with an error
    and leaves nothing running. *)
Definition start {A} (c : Call) (r : Resource) (answer : Result A) : M (Result A) :=
  fun _ w =>
    let w := log c w in
    match answer with
    | Ok a => (Returned (Ok a), acquire r w)
    | Err e => (Returned (Err e), w)
    end.

Definition NewSSHAgent (dialer : NsDialer) : M (Result SSHAgent_t) := fun o =>
  start (CallNewSSHAgent dialer) ResSSHAgent (on_NewSSHAgent o dialer) o.

Definition NewDnsmasq : M (Result Dnsmasq_t) := fun o =>
  start CallNewDnsmasq ResDnsmasq (on_NewDnsmasq o) o.

Definition NewSimpleEtcd : M (Result SimpleEtcd_t) := fun o =>
  start CallNewSimpleEtcd ResSimpleEtcd (on_NewSimpleEtcd o) o.

(** Modelled from the spec: a service's destroy (not in cluster.go)
    terminates the subprocess or listener, releases its resources and
    reports an error or nil.  The receiver is a pointer: through nil the
    method faults. *)
Definition stop {A} (recv : option A) (c : A -> Call) (r : Resource)
    (answer : A -> option error) : M (option error) := fun _ w =>
  match recv with
  | None => (Panicked NilDereference, w)
  | Some a => (Returned (answer a), release r (log (c a) w))
  end.

Definition SimpleEtcd_Destroy (se : option SimpleEtcd_t) : M (option error) := fun o =>
  stop se CallSimpleEtcdDestroy ResSimpleEtcd (on_SimpleEtcdDestroy o) o.

Definition Dnsmasq_Destroy (dm : option Dnsmasq_t) : M (option error) := fun o =>
  stop dm CallDnsmasqDestroy ResDnsmasq (on_DnsmasqDestroy o) o.

Definition SSHAgent_Close (a : option SSHAgent_t) : M (option error) := fun o =>
  stop a CallSSHAgentClose ResSSHAgent (on_SSHAgentClose o) o.

(** Modelled from the spec: [NewNsCommand] (not in cluster.go) builds a
    command description bound to the namespace; it runs nothing. *)
Definition NewNsCommand (ns : NsHandle) (name : string) (arg : list string) : M Cmd :=
  fun o w => (Returned (on_NewNsCommand o ns name arg), log (CallNewNsCommand ns name arg) w).

(** Modelled from the spec: [AddLinkTap] (not in cluster.go) creates a TAP
    device in the current namespace, or fails with an error. *)
Definition AddLinkTap (name : string) : M (Result TunTap) := fun o =>
  start (CallAddLinkTap name) ResTap (on_AddLinkTap o name) o.

(** The three netlink calls: set a link up, find a link by name, set a
    link's master. *)
Definition LinkSetUp (tap : TunTap) : M (option error) := fun o w =>
  (Returned (on_LinkSetUp o tap), log (CallLinkSetUp tap) w).

Definition LinkByName (name : string) : M (Result Link) := fun o w =>
  (Returned (on_LinkByName o name), log (CallLinkByName name) w).

Definition LinkSetMaster (tap : TunTap) (br : Bridge) : M (option error) := fun o w =>
  (Returned (on_LinkSetMaster o tap br), log (CallLinkSetMaster tap br) w).

(** The type assertion of a link to a pointer to [netlink.Bridge]. *)
Definition assert_Bridge (l : Link) : M Bridge :=
  match l with
  | LinkBridge b => ret b
  | LinkOther _ _ => panic (TypeAssertion "*netlink.Bridge")
  end.

(** [fmt.Errorf] with a prefix followed by the verb for the error. *)
Definition Errorf (prefix : string) (err : error) : error := prefix ++ err.

(** ** The operations of cluster.go *)

Definition set_nshandle (lc : LocalCluster) (ns : NsHandle) : LocalCluster :=
  {| SSHAgent := SSHAgent lc; Dnsmasq := Dnsmasq lc;
     SimpleEtcd := SimpleEtcd lc; nshandle := ns |}.

Definition set_SSHAgent (lc : LocalCluster) (a : option SSHAgent_t) : LocalCluster :=
  {| SSHAgent := a; Dnsmasq := Dnsmasq lc;
     SimpleEtcd := SimpleEtcd lc; nshandle := nshandle lc |}.

Definition set_Dnsmasq (lc : LocalCluster) (d : option Dnsmasq_t) : LocalCluster :=
  {| SSHAgent := SSHAgent lc; Dnsmasq := d;
     SimpleEtcd := SimpleEtcd lc; nshandle := nshandle lc |}.

Definition set_SimpleEtcd (lc : LocalCluster) (e : option SimpleEtcd_t) : LocalCluster :=
  {| SSHAgent := SSHAgent lc; Dnsmasq := Dnsmasq lc;
     SimpleEtcd := e; nshandle := nshandle lc |}.

(** A Go result pair: a pointer and an error. *)
Definition Pair (T : Type) : Type := (option T * option error)%type.

Definition NewLocalCluster : M (Pair LocalCluster) :=
  let lc := LocalCluster_zero in
  r <- NsCreate ;;
  match r with
  | Err err => ret (None, Some err)
  | Ok ns =>
      let lc := set_nshandle lc ns in
      let dialer := NewNsDialer (nshandle lc) in
      r <- NewSSHAgent dialer ;;
      match r with
      | Err err =>
          (NsHandle_Close (nshandle lc) ;;;
           ret (None, Some err))
      | Ok agent =>
          let lc := set_SSHAgent lc (Some agent) in
          (* dnsmasq and etcd are launched in the new namespace *)
          r <- NsEnter (nshandle lc) ;;
          match r with
          | Err err => ret (None, Some err)
          | Ok nsExit =>
              defer nsExit
                (r <- NewDnsmasq ;;
                 match r with
                 | Err err =>
                     (NsHandle_Close (nshandle lc) ;;;
                      ret (None, Some err))
                 | Ok dm =>
                     let lc := set_Dnsmasq lc (Some dm) in
                     r <- NewSimpleEtcd ;;
                     match r with
                     | Err err =>
                         (Dnsmasq_Destroy (Dnsmasq lc) ;;;
                          NsHandle_Close (nshandle lc) ;;;
                          ret (None, Some err))
                     | Ok se =>
                         let lc := set_SimpleEtcd lc (Some se) in
                         ret (Some lc, None)
                     end
                 end)
          end
      end
  end.

Definition NewCommand (lc : LocalCluster) (name : string) (arg : list string) : M Cmd :=
  cmd <- NewNsCommand (nshandle lc) name arg ;;
  match SSHAgent lc with
  | None => panic NilDereference
  | Some agent =>
      let sshEnv := "SSH_AUTH_SOCK=" ++ Socket agent in
      ret (set_Env cmd (Env cmd ++ [sshEnv])%list)
  end.

Definition NewTap (lc : LocalCluster) (bridge : string) : M (Pair TunTap) :=
  r <- NsEnter (nshandle lc) ;;
  match r with
  | Err err => ret (None, Some err)
  | Ok nsExit =>
      defer nsExit
        (r <- AddLinkTap "" ;;
         match r with
         | Err err => ret (None, Some (Errorf "tap failed: " err))
         | Ok tap =>
             e <- LinkSetUp tap ;;
             match e with
             | Some err => ret (None, Some (Errorf "tap up failed: " err))
             | None =>
                 r <- LinkByName bridge ;;
                 match r with
                 | Err err => ret (None, Some (Errorf "bridge failed: " err))
                 | Ok br =>
                     b <- assert_Bridge br ;;
                     e <- LinkSetMaster tap b ;;
                     match e with
                     | Some err => ret (None, Some (Errorf "set master failed: " err))
                     | None => ret (Some tap, None)
                     end
                 end
             end
         end)
  end.

(** The closure [firstErr] of [Destroy], with the captured [err] passed
    in and out. *)
Definition firstErr (err e : option error) : option error :=
  match e, err with
  | Some _, None => e
  | _, _ => err
  end.

Definition Destroy (lc : LocalCluster) : M (option error) :=
  let err := None in
  e <- SimpleEtcd_Destroy (SimpleEtcd lc) ;;
  let err := firstErr err e in
  e <- Dnsmasq_Destroy (Dnsmasq lc) ;;
  let err := firstErr err e in
  e <- SSHAgent_Close (SSHAgent lc) ;;
  let err := firstErr err e in
  e <- NsHandle_Close (nshandle lc) ;;
  let err := firstErr err e in
  ret err.

(** ** Notions the properties are stated with *)

(** The first non-nil error of a list of results, nil when there is none. *)
Fixpoint first_error (l : list (option error)) : option error :=
  match l with
  | [] => None
  | Some e :: _ => Some e
  | None :: rest => first_error rest
  end.

(** Kinds of call: creation of the TAP device, attachment to a bridge,
    activation, scope entry, scope release, closing the SSH agent. *)
Definition is_create (c : Call) : bool :=
  match c with CallAddLinkTap _ => true | _ => false end.

Definition is_attach (c : Call) : bool :=
  match c with CallLinkSetMaster _ _ => true | _ => false end.

Definition is_activate (c : Call) : bool :=
  match c with CallLinkSetUp _ => true | _ => false end.

Definition is_NsEnter (c : Call) : bool :=
  match c with CallNsEnter _ => true | _ => false end.

Definition is_NsExit (c : Call) : bool :=
  match c with CallNsExit => true | _ => false end.

Definition is_SSHAgentClose (c : Call) : bool :=
  match c with CallSSHAgentClose _ => true | _ => false end.

(** Index of the first call of a kind. *)
Fixpoint position (p : Call -> bool) (t : list Call) : option nat :=
  match t with
  | [] => None
  | c :: rest => if p c then Some O else option_map S (position p rest)
  end.

(** Number of calls of a kind. *)
Definition count (p : Call -> bool) (t : list Call) : nat :=
  List.length (filter p t).

(** The order of C6 as stated: creation, then attachment, then
    activation. *)
Definition create_attach_activate (t : list Call) : Prop :=
  exists i j k,
    position is_create t = Some i
    /\ position is_attach t = Some j
    /\ position is_activate t = Some k
    /\ (i < j)%nat /\ (j < k)%nat.

(** The two operations that enter the namespace scope. *)
Inductive ScopedOp : Type :=
| OpNewTap (lc : LocalCluster) (bridge : string)
| OpNewLocalCluster.

(** The operation reaches [NsEnter] and [NsEnter] succeeds. *)
Definition enters_scope (op : ScopedOp) (o : Collaborators) : Prop :=
  match op with
  | OpNewTap lc _ => on_NsEnter o (nshandle lc) = None
  | OpNewLocalCluster =>
      exists ns a,
        on_NsCreate o = Ok ns
        /\ on_NewSSHAgent o (NewNsDialer ns) = Ok a
        /\ on_NsEnter o ns = None
  end.

Definition world_after_op (op : ScopedOp) (o : Collaborators) (w : World) : World :=
  match op with
  | OpNewTap lc bridge => world_after (NewTap lc bridge) o w
  | OpNewLocalCluster => world_after NewLocalCluster o w
  end.

(** Between [w] and [w'] the scope was entered once and released once, the
    release is the last call, and the thread is back in the namespace it
    was bound to. *)
Definition released_once (w w' : World) : Prop :=
  exists calls,
    trace w' = (trace w ++ calls)%list
    /\ count is_NsEnter calls = 1%nat
    /\ count is_NsExit calls = 1%nat
    /\ last calls CallNsCreate = CallNsExit
    /\ cur_ns w' = cur_ns w.

(** ** Concrete worlds and collaborators *)

Definition lease4 (a b c d : byte) : Net.IPNet :=
  {| Net.IP_ := Net.IPv4 a b c d; Net.Mask := [xff; xff; xff; x00] |}.

Definition cluster_br0 : LocalCluster :=
  {| SSHAgent := Some {| Socket := "/tmp/agent.sock" |};
     Dnsmasq := Some {| Segments :=
       [ {| BridgeName := "br0";
            BridgeIf := {| DHCPv4 := [lease4 x0a x00 x02 x0f] |} |} ] |};
     SimpleEtcd := Some {| Port := 2379 |};
     nshandle := 7 |}.

Definition seg_br0 : Segment :=
  {| BridgeName := "br0"; BridgeIf := {| DHCPv4 := [lease4 x0a x00 x02 x0f] |} |}.

Definition seg_br1 : Segment :=
  {| BridgeName := "br1"; BridgeIf := {| DHCPv4 := [lease4 x0a x00 x03 x01] |} |}.

(** Another segment on the bridge br0, leasing 10.0.3.1. *)
Definition seg_br0_second : Segment :=
  {| BridgeName := "br0"; BridgeIf := {| DHCPv4 := [lease4 x0a x00 x03 x01] |} |}.

Definition seg_br0_unleased : Segment :=
  {| BridgeName := "br0"; BridgeIf := {| DHCPv4 := [] |} |}.

Definition with_segments (segs : list Segment) : LocalCluster :=
  set_Dnsmasq cluster_br0 (Some {| Segments := segs |}).

(** The thread starts in namespace 1; nothing has been called or created. *)
Definition w0 : World := {| trace := []; cur_ns := 1; live := [] |}.

Definition agent0 : SSHAgent_t := {| Socket := "/tmp/agent.sock" |}.
Definition dnsmasq0 : Dnsmasq_t := {| Segments := [seg_br0] |}.
Definition etcd0 : SimpleEtcd_t := {| Port := 2379 |}.
Definition tap0 : TunTap := {| TapName := "tap0"; TapIndex := 3 |}.
Definition br0 : Bridge := {| BridgeLinkName := "br0"; BridgeIndex := 2 |}.

(** Every collaborator succeeds; a new command starts with one entry in its
    environment. *)
Definition all_ok : Collaborators :=
  {| on_NsCreate := Ok 7;
     on_NewSSHAgent := fun _ => Ok agent0;
     on_NsEnter := fun _ => None;
     on_NewDnsmasq := Ok dnsmasq0;
     on_NewSimpleEtcd := Ok etcd0;
     on_SimpleEtcdDestroy := fun _ => None;
     on_DnsmasqDestroy := fun _ => None;
     on_SSHAgentClose := fun _ => None;
     on_NsHandleClose := fun _ => None;
     on_NewNsCommand := fun ns name arg =>
       {| Name := name; Args := arg; Env := ["FOO=bar"]; CmdNs := ns |};
     on_AddLinkTap := fun _ => Ok tap0;
     on_LinkSetUp := fun _ => None;
     on_LinkByName := fun _ => Ok (LinkBridge br0);
     on_LinkSetMaster := fun _ _ => None |}.

(** As [all_ok], but etcd does not start. *)
Definition etcd_fails : Collaborators :=
  {| on_NsCreate := Ok 7;
     on_NewSSHAgent := fun _ => Ok agent0;
     on_NsEnter := fun _ => None;
     on_NewDnsmasq := Ok dnsmasq0;
     on_NewSimpleEtcd := Err "etcd: exec failed";
     on_SimpleEtcdDestroy := fun _ => None;
     on_DnsmasqDestroy := fun _ => None;
     on_SSHAgentClose := fun _ => None;
     on_NsHandleClose := fun _ => None;
     on_NewNsCommand := on_NewNsCommand all_ok;
     on_AddLinkTap := fun _ => Ok tap0;
     on_LinkSetUp := fun _ => None;
     on_LinkByName := fun _ => Ok (LinkBridge br0);
     on_LinkSetMaster := fun _ _ => None |}.

(** As [all_ok], but the name looked up belongs to a veth link. *)
Definition finds_veth : Collaborators :=
  {| on_NsCreate := Ok 7;
     on_NewSSHAgent := fun _ => Ok agent0;
     on_NsEnter := fun _ => None;
     on_NewDnsmasq := Ok dnsmasq0;
     on_NewSimpleEtcd := Ok etcd0;
     on_SimpleEtcdDestroy := fun _ => None;
     on_DnsmasqDestroy := fun _ => None;
     on_SSHAgentClose := fun _ => None;
     on_NsHandleClose := fun _ => None;
     on_NewNsCommand := on_NewNsCommand all_ok;
     on_AddLinkTap := fun _ => Ok tap0;
     on_LinkSetUp := fun _ => None;
     on_LinkByName := fun name => Ok (LinkOther "veth" name);
     on_LinkSetMaster := fun _ _ => None |}.

(** As [all_ok], but stopping etcd and closing the SSH agent both fail. *)
Definition etcd_and_agent_teardown_fail : Collaborators :=
  {| on_NsCreate := Ok 7;
     on_NewSSHAgent := fun _ => Ok agent0;
     on_NsEnter := fun _ => None;
     on_NewDnsmasq := Ok dnsmasq0;
     on_NewSimpleEtcd := Ok etcd0;
     on_SimpleEtcdDestroy := fun _ => Some "etcd: kill failed";
     on_DnsmasqDestroy := fun _ => None;
     on_SSHAgentClose := fun _ => Some "agent: remove failed";
     on_NsHandleClose := fun _ => None;
     on_NewNsCommand := on_NewNsCommand all_ok;
     on_AddLinkTap := fun _ => Ok tap0;
     on_LinkSetUp := fun _ => None;
     on_LinkByName := fun _ => Ok (LinkBridge br0);
     on_LinkSetMaster := fun _ _ => None |}.

(** ** Notions for the further properties of cluster.go *)

(** Further kinds of call: the two services launched in the namespace, the
    start of the SSH agent, the netlink operations on links, and closing the
    namespace handle. *)
Definition is_namespaced_start (c : Call) : bool :=
  match c with CallNewDnsmasq | CallNewSimpleEtcd => true | _ => false end.

Definition is_NewSSHAgent (c : Call) : bool :=
  match c with CallNewSSHAgent _ => true | _ => false end.

Definition is_link_op (c : Call) : bool :=
  match c with
  | CallAddLinkTap _ | CallLinkSetUp _ | CallLinkByName _ | CallLinkSetMaster _ _ => true
  | _ => false
  end.


Definition is_SimpleEtcdDestroy (c : Call) : bool :=
  match c with CallSimpleEtcdDestroy _ => true | _ => false end.

(** Walk a sequence of calls, following the scope: a successful [NsEnter]
    opens it, the release closes it.  The result says that every call of
    kind [p] is made inside the scope ([want = true]) or outside it
    ([want = false]). *)
Fixpoint placed (o : Collaborators) (want : bool) (p : Call -> bool)
    (inside : bool) (t : list Call) : bool :=
  match t with
  | [] => true
  | CallNsEnter ns :: rest =>
      placed o want p
        (match on_NsEnter o ns with None => true | Some _ => inside end) rest
  | CallNsExit :: rest => placed o want p false rest
  | c :: rest =>
      (if p c then Bool.eqb inside want else true) && placed o want p inside rest
  end.

(** The resources a cluster is made of. *)
Definition cluster_resource (r : Resource) : bool :=
  match r with ResTap => false | _ => true end.

(** A caller that builds a cluster and, when it got one, destroys it. *)
Definition create_then_Destroy : M (option error) :=
  r <- NewLocalCluster ;;
  match r with
  | (Some lc, _) => Destroy lc
  | (None, err) => ret err
  end.

(** As [all_ok], but the device cannot be given its master. *)
Definition set_master_fails : Collaborators :=
  {| on_NsCreate := Ok 7;
     on_NewSSHAgent := fun _ => Ok agent0;
     on_NsEnter := fun _ => None;
     on_NewDnsmasq := Ok dnsmasq0;
     on_NewSimpleEtcd := Ok etcd0;
     on_SimpleEtcdDestroy := fun _ => None;
     on_DnsmasqDestroy := fun _ => None;
     on_SSHAgentClose := fun _ => None;
     on_NsHandleClose := fun _ => None;
     on_NewNsCommand := on_NewNsCommand all_ok;
     on_AddLinkTap := fun _ => Ok tap0;
     on_LinkSetUp := fun _ => None;
     on_LinkByName := fun _ => Ok (LinkBridge br0);
     on_LinkSetMaster := fun _ _ => Some "operation not permitted" |}.

(** As [all_ok], but the namespace cannot be entered. *)
Definition ns_enter_fails : Collaborators :=
  {| on_NsCreate := Ok 7;
     on_NewSSHAgent := fun _ => Ok agent0;
     on_NsEnter := fun _ => Some "setns: operation not permitted";
     on_NewDnsmasq := Ok dnsmasq0;
     on_NewSimpleEtcd := Ok etcd0;
     on_SimpleEtcdDestroy := fun _ => None;
     on_DnsmasqDestroy := fun _ => None;
     on_SSHAgentClose := fun _ => None;
     on_NsHandleClose := fun _ => None;
     on_NewNsCommand := on_NewNsCommand all_ok;
     on_AddLinkTap := fun _ => Ok tap0;
     on_LinkSetUp := fun _ => None;
     on_LinkByName := fun _ => Ok (LinkBridge br0);
     on_LinkSetMaster := fun _ _ => None |}.

(** ** The option loop of create_disk.sh

    Lines 36 to 67 of the script: the loop over the positional parameters,
    run under [set -u], and the checks that the required variables are set.
    A shell variable is unset ([None]) or holds a string; the variables
    start from the environment the script is called in.  Writing to the
    standard output is taken to succeed. *)

Module CreateDisk.

(** The variables the loop assigns. *)
Inductive Var : Type :=
| disk | buildid | imgid | grub_script | extrakargs | os_name
| ref | remote_name | ostree | save_var_subdirs.

Definition Var_eqb (x y : Var) : bool :=
  match x, y with
  | disk, disk | buildid, buildid | imgid, imgid | grub_script, grub_script
  | extrakargs, extrakargs | os_name, os_name | ref, ref
  | remote_name, remote_name | ostree, ostree
  | save_var_subdirs, save_var_subdirs => true
  | _, _ => false
  end.

Definition Vars : Type := Var -> option string.

(** The assignment [x=value]. *)
Definition assign (x : Var) (value : string) (v : Vars) : Vars :=
  fun y => if Var_eqb x y then Some value else v y.

(** A pattern of a [case] clause: a literal word, or the star. *)
Inductive Pattern : Type :=
| Lit (word : string)
| Star.

(** What a clause of the [case] does. *)
Inductive Action : Type :=
| SetFromNext (x : Var)      (* x=${1}; shift *)
| AppendKargs                (* extrakargs=${extrakargs} ${1}; shift *)
| UsageAndExit               (* usage; exit *)
| NotUnderstoodExit10        (* echo flag=${1} is not understood.; usage; exit 10 *)
| Break.                     (* break *)

(** The clauses of the [case], in the order the script lists them. *)
Definition clauses : list (Pattern * Action) :=
  [ (Lit "--disk", SetFromNext disk);
    (Lit "--buildid", SetFromNext buildid);
    (Lit "--imgid", SetFromNext imgid);
    (Lit "--grub-script", SetFromNext grub_script);
    (Lit "--help", UsageAndExit);
    (Lit "--kargs", AppendKargs);
    (Lit "--osname", SetFromNext os_name);
    (Lit "--ostree-ref", SetFromNext ref);
    (Lit "--ostree-remote", SetFromNext remote_name);
    (Lit "--ostree-repo", SetFromNext ostree);
    (Lit "--save-var-subdirs", SetFromNext save_var_subdirs);
    (Star, NotUnderstoodExit10);
    (Lit "--", Break) ].

Definition matches (p : Pattern) (word : string) : bool :=
  match p with
  | Lit l => String.eqb word l
  | Star => true
  end.

(** [case word in ...]: the first clause whose pattern matches. *)
Fixpoint select (word : string) (cs : list (Pattern * Action)) : option Action :=
  match cs with
  | [] => None
  | (p, a) :: rest => if matches p word then Some a else select word rest
  end.

(** How the loop ends. *)
Inductive Outcome : Type :=
| Parsed (v : Vars)                (* the loop is left and the script goes on *)
| UsageExit                        (* usage was printed; exit *)
| NotUnderstood (line : string)    (* the line echoed before usage and exit 10 *)
| UnboundVariable (name : string). (* set -u: an unset parameter was expanded *)

(** The [while] loop: [args] are the positional parameters left. *)
Fixpoint parse (args : list string) (v : Vars) : Outcome :=
  match args with
  | [] => Parsed v
  | flag :: rest =>
      match select flag clauses with
      | None => parse rest v
      | Some (SetFromNext x) =>
          match rest with
          | [] => UnboundVariable "1"
          | value :: rest' => parse rest' (assign x value v)
          end
      | Some AppendKargs =>
          match v extrakargs with
          | None => UnboundVariable "extrakargs"
          | Some k =>
              match rest with
              | [] => UnboundVariable "1"
              | value :: rest' => parse rest' (assign extrakargs (k ++ " " ++ value) v)
              end
          end
      | Some UsageAndExit => UsageExit
      | Some NotUnderstoodExit10 =>
          match rest with
          | [] => UnboundVariable "1"
          | next :: _ => NotUnderstood (flag ++ "=" ++ next ++ " is not understood.")
          end
      | Some Break => Parsed v
      end
  end.

(** Lines 36 to 55: [extrakargs] is emptied, then the loop runs. *)
Definition parse_options (env : Vars) (args : list string) : Outcome :=
  parse args (assign extrakargs "" env).

(** The checks of lines 59 to 67, in their order, each with its message. *)
Definition required : list (Var * string) :=
  [ (disk, "--disk must be defined");
    (buildid, "--buildid must be defined");
    (imgid, "--imgid must be defined");
    (ostree, "--ostree-repo must be defined");
    (ref, "--ostree-ref must be defined");
    (remote_name, "--ostree-remote must be defined");
    (grub_script, "--grub-script must be defined");
    (os_name, "--os_name must be defined");
    (save_var_subdirs, "--save_var_subdirs must be defined") ].

(** The variable is set and not empty. *)
Definition defined (v : Vars) (x : Var) : bool :=
  match v x with
  | Some value => negb (String.eqb value "")
  | None => false
  end.

(** A run of checks [x=${x:?message}]: the first variable that is unset
    or empty ends the script with its message. *)
Fixpoint check (rs : list (Var * string)) (v : Vars) : option string :=
  match rs with
  | [] => None
  | (x, message) :: rest => if defined v x then check rest v else Some message
  end.

(** The flag that assigns a variable. *)
Definition flag_of (x : Var) : string :=
  match x with
  | disk => "--disk"
  | buildid => "--buildid"
  | imgid => "--imgid"
  | grub_script => "--grub-script"
  | extrakargs => "--kargs"
  | os_name => "--osname"
  | ref => "--ostree-ref"
  | remote_name => "--ostree-remote"
  | ostree => "--ostree-repo"
  | save_var_subdirs => "--save-var-subdirs"
  end.

(** The words the script knows as flags. *)
Definition flags : list string :=
  [ "--disk"; "--buildid"; "--imgid"; "--grub-script"; "--help"; "--kargs";
    "--osname"; "--ostree-ref"; "--ostree-remote"; "--ostree-repo";
    "--save-var-subdirs" ].

(** A command line made of flags followed by their values. *)
Definition words (options : list (Var * string)) : list string :=
  flat_map (fun option => [flag_of (fst option); snd option]) options.

(** The values given for a variable, in the order of the command line. *)
Definition given (x : Var) (options : list (Var * string)) : list string :=
  map snd (filter (fun option => Var_eqb (fst option) x) options).

(** What the variables hold after the options: every value of [--kargs]
    behind a space each, and for another variable the last value given, or
    failing that what the environment had. *)
Definition after_options (env : Vars) (options : list (Var * string)) : Vars :=
  fun x =>
    match x with
    | extrakargs =>
        Some (String.concat "" (map (fun value => " " ++ value) (given extrakargs options)))
    | _ => last (map Some (given x options)) (env x)
    end.

(** What the variables hold once the loop has consumed flags with values,
    started from [v] with [extrakargs] holding [k]. *)
Definition consumed (v : Vars) (k : string) (options : list (Var * string)) : Vars :=
  fun x =>
    match x with
    | extrakargs =>
        Some (k ++ String.concat "" (map (fun value => " " ++ value) (given extrakargs options)))
    | _ => last (map Some (given x options)) (v x)
    end.

(** An environment that sets none of the variables. *)
Definition no_env : Vars := fun _ => None.

End CreateDisk.

(** ** Running the operations *)

Ltac unfold_ops :=
  unfold NewLocalCluster, NewTap, Destroy, NewCommand,
    NsCreate, NsEnter, nsExit_to, NsHandle_Close,
    NewSSHAgent, NewDnsmasq, NewSimpleEtcd,
    SimpleEtcd_Destroy, Dnsmasq_Destroy, SSHAgent_Close,
    NewNsCommand, AddLinkTap, LinkSetUp, LinkByName, LinkSetMaster,
    assert_Bridge, start, stop, defer, bind, ret, panic, log, acquire,
    release, bind_ns.

Ltac flatten_trace := rewrite <- ?app_assoc; cbn [app].

(** Unfold the operations, use the collaborators' answers found among the
    hypotheses, and bring the trace to the form [old ++ new]. *)
Ltac run :=
  unfold result_of, world_after; unfold_ops; cbn;
  repeat match goal with
         | H : ?x = _ |- context [?x] => rewrite H; cbn
         end;
  flatten_trace.

Ltac released := eexists; split; [reflexivity | repeat split].

(** * Properties *)

(** ** Endpoint resolution *)

Section Endpoint.

Variable bridge : string.
Variable etcd : option SimpleEtcd_t.

(** Segments with another bridge name are passed over. *)
Lemma EtcdEndpoint_range_skip (pre rest : list Segment) :
  (forall s, In s pre -> BridgeName s <> bridge) ->
  EtcdEndpoint_range bridge etcd (pre ++ rest) = EtcdEndpoint_range bridge etcd rest.
Proof.
  induction pre as [|s pre IH]; intros Hpre; [reflexivity|].
  cbn [app EtcdEndpoint_range].
  destruct (String.eqb_spec bridge (BridgeName s)) as [Heq|_].
  - exfalso. apply (Hpre s); [left; reflexivity | symmetry; exact Heq].
  - apply IH. intros s' Hs'. apply Hpre. right. exact Hs'.
Qed.

(** The loop stops at the first segment with the bridge name. *)
Lemma EtcdEndpoint_range_first (pre post : list Segment) (seg : Segment) :
  (forall s, In s pre -> BridgeName s <> bridge) ->
  BridgeName seg = bridge ->
  EtcdEndpoint_range bridge etcd (pre ++ seg :: post)
  = EtcdEndpoint_range bridge etcd [seg].
Proof.
  intros Hpre Hseg. rewrite EtcdEndpoint_range_skip by exact Hpre.
  cbn [EtcdEndpoint_range]. rewrite Hseg, String.eqb_refl. reflexivity.
Qed.

End Endpoint.

(** Without a segment of the name the loop runs to its end. *)
Lemma EtcdEndpoint_range_none (bridge : string) (etcd : option SimpleEtcd_t)
    (segs : list Segment) :
  (forall s, In s segs -> BridgeName s <> bridge) ->
  EtcdEndpoint_range bridge etcd segs = Panicked (PanicString "Not a valid bridge!").
Proof.
  intros H. rewrite <- (app_nil_r segs).
  rewrite EtcdEndpoint_range_skip by exact H. reflexivity.
Qed.

(** C2, as stated, fails: on the cluster of the example the endpoint is not
    the bare string 10.0.2.15:2379. *)
Lemma EtcdEndpoint_not_bare_address :
  EtcdEndpoint cluster_br0 <> Returned "10.0.2.15:2379".
Proof. vm_compute. discriminate. Qed.

(** C2, amended: when the first segment named br0 has 10.0.2.15 as its first
    lease (in the 4-byte or the 16-byte form) and etcd listens on 2379,
    [EtcdEndpoint] returns the address and the port joined by a colon,
    after the scheme prefix http://. *)
Theorem EtcdEndpoint_br0_http
    (lc : LocalCluster) (dm : Dnsmasq_t) (se : SimpleEtcd_t)
    (pre post : list Segment) (seg : Segment)
    (lease : Net.IPNet) (leases : list Net.IPNet) :
  Dnsmasq lc = Some dm ->
  SimpleEtcd lc = Some se ->
  Port se = 2379 ->
  Segments dm = (pre ++ seg :: post)%list ->
  (forall s, In s pre -> BridgeName s <> "br0") ->
  BridgeName seg = "br0" ->
  DHCPv4 (BridgeIf seg) = lease :: leases ->
  Net.To4 (Net.IP_ lease) = [x0a; x00; x02; x0f] ->
  EtcdEndpoint lc = Returned "http://10.0.2.15:2379".
Proof.
  intros Hdm Hse Hport Hsegs Hpre Hseg Hleases Hip.
  unfold EtcdEndpoint. rewrite Hdm, Hse, Hsegs.
  rewrite EtcdEndpoint_range_first by assumption.
  cbn [EtcdEndpoint_range]. rewrite Hseg, Hleases, Hport. cbn [String.eqb Ascii.eqb Bool.eqb].
  unfold Net.String. rewrite Hip.
  destruct (Net.IP_ lease) as [|b ip'] eqn:E; [discriminate Hip|].
  reflexivity.
Qed.

Lemma EtcdEndpoint_br0_http_witness :
  EtcdEndpoint (with_segments [seg_br1; seg_br0; seg_br0_unleased])
  = Returned "http://10.0.2.15:2379".
Proof.
  apply (EtcdEndpoint_br0_http
           (with_segments [seg_br1; seg_br0; seg_br0_unleased])
           {| Segments := [seg_br1; seg_br0; seg_br0_unleased] |} etcd0
           [seg_br1] [seg_br0_unleased] seg_br0
           (lease4 x0a x00 x02 x0f) []);
    try reflexivity.
  intros s [Hs|[]]. rewrite <- Hs. simpl. discriminate.
Defined.

(** C5: when no segment is named br0, [EtcdEndpoint] panics with its
    message and returns nothing. *)
Theorem EtcdEndpoint_no_br0_panics (lc : LocalCluster) (dm : Dnsmasq_t) :
  Dnsmasq lc = Some dm ->
  (forall s, In s (Segments dm) -> BridgeName s <> "br0") ->
  EtcdEndpoint lc = Panicked (PanicString "Not a valid bridge!")
  /\ (forall endpoint, EtcdEndpoint lc <> Returned endpoint).
Proof.
  intros Hdm Hnone.
  assert (H : EtcdEndpoint lc = Panicked (PanicString "Not a valid bridge!")).
  { unfold EtcdEndpoint. rewrite Hdm. apply EtcdEndpoint_range_none. exact Hnone. }
  split; [exact H|]. intros endpoint. rewrite H. discriminate.
Qed.

Lemma EtcdEndpoint_no_br0_panics_witness :
  EtcdEndpoint (with_segments [seg_br1]) = Panicked (PanicString "Not a valid bridge!")
  /\ (forall endpoint, EtcdEndpoint (with_segments [seg_br1]) <> Returned endpoint).
Proof.
  apply (EtcdEndpoint_no_br0_panics (with_segments [seg_br1]) {| Segments := [seg_br1] |}).
  - reflexivity.
  - intros s [Hs|[]]. rewrite <- Hs. simpl. discriminate.
Defined.

(** C10: the first segment named br0, in segment order, is the one used,
    whatever comes before or after it: the result is computed from its
    first lease, which is read without a check.  With a lease there the
    endpoint is built from that lease's address and the port of etcd; with
    an empty lease list the operation panics with index out of range and
    returns no error value. *)
Theorem EtcdEndpoint_first_br0_unguarded
    (lc : LocalCluster) (dm : Dnsmasq_t) (pre post : list Segment) (seg : Segment) :
  Dnsmasq lc = Some dm ->
  Segments dm = (pre ++ seg :: post)%list ->
  (forall s, In s pre -> BridgeName s <> "br0") ->
  BridgeName seg = "br0" ->
  EtcdEndpoint lc
  = match DHCPv4 (BridgeIf seg) with
    | [] => Panicked (IndexOutOfRange 0 0)
    | lease :: _ =>
        match SimpleEtcd lc with
        | None => Panicked NilDereference
        | Some se =>
            Returned ("http://" ++ Net.String (Net.IP_ lease) ++ ":" ++ Fmt.d (Port se))
        end
    end
  /\ EtcdEndpoint lc = EtcdEndpoint (set_Dnsmasq lc (Some {| Segments := [seg] |}))
  /\ (DHCPv4 (BridgeIf seg) = [] -> EtcdEndpoint lc = Panicked (IndexOutOfRange 0 0)).
Proof.
  intros Hdm Hsegs Hpre Hseg.
  assert (H : EtcdEndpoint lc = EtcdEndpoint_range "br0" (SimpleEtcd lc) [seg]).
  { unfold EtcdEndpoint. rewrite Hdm, Hsegs.
    apply EtcdEndpoint_range_first; assumption. }
  split; [|split].
  - rewrite H. cbn [EtcdEndpoint_range]. rewrite Hseg, String.eqb_refl.
    destruct (DHCPv4 (BridgeIf seg)) as [|lease leases]; reflexivity.
  - exact H.
  - intros Hempty. rewrite H. cbn [EtcdEndpoint_range].
    rewrite Hseg, Hempty. reflexivity.
Qed.

Lemma EtcdEndpoint_first_br0_unguarded_witness :
  EtcdEndpoint (with_segments [seg_br1; seg_br0_second; seg_br0])
  = Returned "http://10.0.3.1:2379"
  /\ EtcdEndpoint (with_segments [seg_br1; seg_br0; seg_br0_second])
     = Returned "http://10.0.2.15:2379"
  /\ EtcdEndpoint (with_segments [seg_br1; seg_br0_unleased; seg_br0])
     = Panicked (IndexOutOfRange 0 0).
Proof.
  split; [|split].
  - apply (EtcdEndpoint_first_br0_unguarded
             (with_segments [seg_br1; seg_br0_second; seg_br0])
             {| Segments := [seg_br1; seg_br0_second; seg_br0] |}
             [seg_br1] [seg_br0] seg_br0_second);
      try reflexivity.
    intros s [Hs|[]]. rewrite <- Hs. simpl. discriminate.
  - apply (EtcdEndpoint_first_br0_unguarded
             (with_segments [seg_br1; seg_br0; seg_br0_second])
             {| Segments := [seg_br1; seg_br0; seg_br0_second] |}
             [seg_br1] [seg_br0_second] seg_br0);
      try reflexivity.
    intros s [Hs|[]]. rewrite <- Hs. simpl. discriminate.
  - apply (EtcdEndpoint_first_br0_unguarded
             (with_segments [seg_br1; seg_br0_unleased; seg_br0])
             {| Segments := [seg_br1; seg_br0_unleased; seg_br0] |}
             [seg_br1] [seg_br0] seg_br0_unleased);
      try reflexivity.
    intros s [Hs|[]]. rewrite <- Hs. simpl. discriminate.
Defined.

(** ** Teardown *)

(** C3: [Destroy] calls the four teardown steps once each, in the order
    etcd, dnsmasq, SSH agent, namespace handle, whatever each one answers,
    and returns the first non-nil error among the four answers (nil when all
    are nil). *)
Theorem Destroy_all_steps_first_error
    (o : Collaborators) (w : World)
    (a : SSHAgent_t) (d : Dnsmasq_t) (e : SimpleEtcd_t) (ns : NsHandle) :
  let lc := {| SSHAgent := Some a; Dnsmasq := Some d;
               SimpleEtcd := Some e; nshandle := ns |} in
  result_of (Destroy lc) o w
  = Returned (first_error [on_SimpleEtcdDestroy o e; on_DnsmasqDestroy o d;
                           on_SSHAgentClose o a; on_NsHandleClose o ns])
  /\ trace (world_after (Destroy lc) o w)
     = (trace w ++ [CallSimpleEtcdDestroy e; CallDnsmasqDestroy d;
                    CallSSHAgentClose a; CallNsHandleClose ns])%list.
Proof.
  intros lc. subst lc. split.
  - run.
    destruct (on_SimpleEtcdDestroy o e), (on_DnsmasqDestroy o d),
      (on_SSHAgentClose o a), (on_NsHandleClose o ns); reflexivity.
  - run. reflexivity.
Qed.

(** When stopping etcd and closing the agent both fail, the error of etcd
    is the one returned, and the agent was closed all the same. *)
Example Destroy_etcd_error_wins :
  Destroy cluster_br0 etcd_and_agent_teardown_fail w0
  = (Returned (Some "etcd: kill failed"),
     {| trace := [CallSimpleEtcdDestroy etcd0; CallDnsmasqDestroy dnsmasq0;
                  CallSSHAgentClose agent0; CallNsHandleClose 7];
        cur_ns := 1; live := [] |}).
Proof. reflexivity. Qed.

Example Destroy_all_succeed :
  result_of (Destroy cluster_br0) all_ok w0 = Returned None.
Proof. reflexivity. Qed.

(** ** Construction *)

(** C9: [NewLocalCluster] returns a cluster with its agent, dnsmasq, etcd
    and the created namespace handle all set together with a nil error, or
    a nil cluster together with a non-nil error; nothing in between. *)
Theorem NewLocalCluster_all_or_nothing (o : Collaborators) (w : World) :
  (exists lc a d e,
      result_of NewLocalCluster o w = Returned (Some lc, None)
      /\ SSHAgent lc = Some a /\ Dnsmasq lc = Some d /\ SimpleEtcd lc = Some e
      /\ on_NsCreate o = Ok (nshandle lc))
  \/ (exists err, result_of NewLocalCluster o w = Returned (None, Some err)).
Proof.
  run.
  destruct (on_NsCreate o) as [ns|err] eqn:Hns; cbn;
    [|right; eexists; reflexivity].
  destruct (on_NewSSHAgent o (NewNsDialer ns)) as [a|err] eqn:Ha; cbn;
    [|right; eexists; reflexivity].
  destruct (on_NsEnter o ns) as [err|] eqn:Hin; cbn;
    [right; eexists; reflexivity|].
  destruct (on_NewDnsmasq o) as [d|err] eqn:Hd; cbn;
    [|right; eexists; reflexivity].
  destruct (on_NewSimpleEtcd o) as [e|err] eqn:He; cbn;
    [|right; eexists; reflexivity].
  left. exists {| SSHAgent := Some a; Dnsmasq := Some d;
                  SimpleEtcd := Some e; nshandle := ns |}, a, d, e.
  repeat split; reflexivity.
Qed.

(** C1, on the code: when etcd fails to start after the namespace, the
    agent and dnsmasq were created, [NewLocalCluster] stops dnsmasq and
    closes the namespace handle but never closes the SSH agent, which is
    still live when the error is returned. *)
Theorem NewLocalCluster_etcd_failure_leaves_agent
    (o : Collaborators) (w : World)
    (ns : NsHandle) (a : SSHAgent_t) (d : Dnsmasq_t) (err : error) :
  on_NsCreate o = Ok ns ->
  on_NewSSHAgent o (NewNsDialer ns) = Ok a ->
  on_NsEnter o ns = None ->
  on_NewDnsmasq o = Ok d ->
  on_NewSimpleEtcd o = Err err ->
  result_of NewLocalCluster o w = Returned (None, Some err)
  /\ trace (world_after NewLocalCluster o w)
     = (trace w ++ [CallNsCreate; CallNewSSHAgent (NewNsDialer ns);
                    CallNsEnter ns; CallNewDnsmasq; CallNewSimpleEtcd;
                    CallDnsmasqDestroy d; CallNsHandleClose ns; CallNsExit])%list
  /\ count is_SSHAgentClose (trace (world_after NewLocalCluster o w))
     = count is_SSHAgentClose (trace w)
  /\ In ResSSHAgent (live (world_after NewLocalCluster o w)).
Proof.
  intros Hns Ha Hin Hd He.
  assert (Htrace : trace (world_after NewLocalCluster o w)
     = (trace w ++ [CallNsCreate; CallNewSSHAgent (NewNsDialer ns);
                    CallNsEnter ns; CallNewDnsmasq; CallNewSimpleEtcd;
                    CallDnsmasqDestroy d; CallNsHandleClose ns; CallNsExit])%list).
  { run. reflexivity. }
  split; [run; reflexivity|]. split; [exact Htrace|]. split.
  - rewrite Htrace. unfold count. rewrite filter_app, length_app. cbn. lia.
  - run. rewrite !filter_In. repeat split.
    apply in_or_app. right. right. left. reflexivity.
Qed.

Lemma NewLocalCluster_etcd_failure_leaves_agent_witness :
  result_of NewLocalCluster etcd_fails w0 = Returned (None, Some "etcd: exec failed")
  /\ trace (world_after NewLocalCluster etcd_fails w0)
     = [CallNsCreate; CallNewSSHAgent (NewNsDialer 7); CallNsEnter 7;
        CallNewDnsmasq; CallNewSimpleEtcd;
        CallDnsmasqDestroy dnsmasq0; CallNsHandleClose 7; CallNsExit]
  /\ count is_SSHAgentClose (trace (world_after NewLocalCluster etcd_fails w0)) = 0%nat
  /\ In ResSSHAgent (live (world_after NewLocalCluster etcd_fails w0)).
Proof.
  apply (NewLocalCluster_etcd_failure_leaves_agent etcd_fails w0 7 agent0
           dnsmasq0 "etcd: exec failed");
    reflexivity.
Defined.

(** The failed attempt of the example ends with the agent as the one
    live resource. *)
Example NewLocalCluster_etcd_fails_live :
  live (world_after NewLocalCluster etcd_fails w0) = [ResSSHAgent].
Proof. reflexivity. Qed.

(** ** Commands *)

(** C7: [NewCommand] appends one entry, SSH_AUTH_SOCK= followed by the
    agent's socket path, to the environment the new command came with;
    every entry that was there is still there. *)
Theorem NewCommand_appends_SSH_AUTH_SOCK
    (o : Collaborators) (w : World) (lc : LocalCluster) (agent : SSHAgent_t)
    (name : string) (arg : list string) :
  SSHAgent lc = Some agent ->
  let cmd0 := on_NewNsCommand o (nshandle lc) name arg in
  exists cmd,
    result_of (NewCommand lc name arg) o w = Returned cmd
    /\ Env cmd = (Env cmd0 ++ [("SSH_AUTH_SOCK=" ++ Socket agent)%string])%list
    /\ firstn (List.length (Env cmd0)) (Env cmd) = Env cmd0
    /\ (forall entry, In entry (Env cmd0) -> In entry (Env cmd)).
Proof.
  intros Hagent cmd0. subst cmd0.
  eexists. split; [run; reflexivity|].
  cbn [set_Env Env]. split; [reflexivity|]. split.
  - rewrite firstn_app, firstn_all, Nat.sub_diag. cbn. apply app_nil_r.
  - intros entry Hin. apply in_or_app. left. exact Hin.
Qed.

Lemma NewCommand_appends_SSH_AUTH_SOCK_witness :
  exists cmd,
    result_of (NewCommand cluster_br0 "ping" ["-c"; "1"]) all_ok w0 = Returned cmd
    /\ Env cmd = ["FOO=bar"; "SSH_AUTH_SOCK=/tmp/agent.sock"]
    /\ firstn 1 (Env cmd) = ["FOO=bar"]
    /\ (forall entry, In entry ["FOO=bar"] -> In entry (Env cmd)).
Proof.
  apply (NewCommand_appends_SSH_AUTH_SOCK all_ok w0 cluster_br0 agent0
           "ping" ["-c"; "1"]).
  reflexivity.
Defined.

(** ** TAP devices *)

(** C6, as stated, fails: in a successful run the device is set up before
    it is given its master. *)
Lemma NewTap_not_create_attach_activate :
  result_of (NewTap cluster_br0 "br0") all_ok w0 = Returned (Some tap0, None)
  /\ ~ create_attach_activate (trace (world_after (NewTap cluster_br0 "br0") all_ok w0)).
Proof.
  split; [reflexivity|].
  intros (i & j & k & Hi & Hj & Hk & Hij & Hjk).
  vm_compute in Hj, Hk.
  injection Hj as <-. injection Hk as <-. lia.
Qed.

(** C6, amended: [NewTap] enters the namespace scope and, inside that one
    scope, creates the TAP device, activates it, looks the bridge up and
    only then attaches the device to it; then it leaves the scope and
    returns the device. *)
Theorem NewTap_create_activate_attach
    (o : Collaborators) (w : World) (lc : LocalCluster) (bridge : string)
    (tap : TunTap) (br : Bridge) :
  on_NsEnter o (nshandle lc) = None ->
  on_AddLinkTap o "" = Ok tap ->
  on_LinkSetUp o tap = None ->
  on_LinkByName o bridge = Ok (LinkBridge br) ->
  on_LinkSetMaster o tap br = None ->
  NewTap lc bridge o w
  = (Returned (Some tap, None),
     {| trace := (trace w ++ [CallNsEnter (nshandle lc); CallAddLinkTap "";
                              CallLinkSetUp tap; CallLinkByName bridge;
                              CallLinkSetMaster tap br; CallNsExit])%list;
        cur_ns := cur_ns w;
        live := (live w ++ [ResTap])%list |}).
Proof. intros Hin Htap Hup Hbr Hmaster. run. reflexivity. Qed.

Lemma NewTap_create_activate_attach_witness :
  NewTap cluster_br0 "br0" all_ok w0
  = (Returned (Some tap0, None),
     {| trace := [CallNsEnter 7; CallAddLinkTap ""; CallLinkSetUp tap0;
                  CallLinkByName "br0"; CallLinkSetMaster tap0 br0; CallNsExit];
        cur_ns := 1;
        live := [ResTap] |}).
Proof.
  apply (NewTap_create_activate_attach all_ok w0 cluster_br0 "br0" tap0 br0);
    reflexivity.
Defined.

(** C4, on the code: when the name belongs to a veth link, [NewTap]
    returns no error value. *)
Lemma NewTap_not_bridge_returns_no_error :
  on_LinkByName finds_veth "eth0" = Ok (LinkOther "veth" "eth0")
  /\ ~ exists err, result_of (NewTap cluster_br0 "eth0") finds_veth w0
                   = Returned (None, Some err).
Proof.
  split; [reflexivity|].
  intros [err H]. vm_compute in H. discriminate H.
Qed.

(** C4, on the code: when the link found by the bridge name is not a
    bridge, [NewTap] does not return an error as its other failures do: it
    panics at the unchecked type assertion, after the TAP device was created
    and set up and before any master is set, and the device stays live.  The
    deferred release of the scope still runs. *)
Theorem NewTap_not_bridge_panics
    (o : Collaborators) (w : World) (lc : LocalCluster) (bridge : string)
    (tap : TunTap) (type name : string) :
  on_NsEnter o (nshandle lc) = None ->
  on_AddLinkTap o "" = Ok tap ->
  on_LinkSetUp o tap = None ->
  on_LinkByName o bridge = Ok (LinkOther type name) ->
  NewTap lc bridge o w
  = (Panicked (TypeAssertion "*netlink.Bridge"),
     {| trace := (trace w ++ [CallNsEnter (nshandle lc); CallAddLinkTap "";
                              CallLinkSetUp tap; CallLinkByName bridge;
                              CallNsExit])%list;
        cur_ns := cur_ns w;
        live := (live w ++ [ResTap])%list |}).
Proof. intros Hin Htap Hup Hbr. run. reflexivity. Qed.

Lemma NewTap_not_bridge_panics_witness :
  NewTap cluster_br0 "eth0" finds_veth w0
  = (Panicked (TypeAssertion "*netlink.Bridge"),
     {| trace := [CallNsEnter 7; CallAddLinkTap ""; CallLinkSetUp tap0;
                  CallLinkByName "eth0"; CallNsExit];
        cur_ns := 1;
        live := [ResTap] |}).
Proof.
  apply (NewTap_not_bridge_panics finds_veth w0 cluster_br0 "eth0" tap0
           "veth" "eth0");
    reflexivity.
Defined.

(** ** The namespace scope *)

(** C8: each operation that enters the namespace scope releases it exactly
    once, last of all its calls, on every way out (a return with a value,
    a return with an error, a panic), and the namespace association after
    the call is the one before it. *)
Theorem scope_released_exactly_once
    (op : ScopedOp) (o : Collaborators) (w : World) :
  enters_scope op o ->
  released_once w (world_after_op op o w).
Proof.
  destruct op as [lc bridge|]; cbn [enters_scope world_after_op].
  - intros Hin. unfold released_once. run.
    destruct (on_AddLinkTap o "") as [tap|err]; cbn; flatten_trace;
      [|released].
    destruct (on_LinkSetUp o tap) as [err|]; cbn; flatten_trace;
      [released|].
    destruct (on_LinkByName o bridge) as [[br|type name]|err]; cbn;
      flatten_trace; [|released|released].
    destruct (on_LinkSetMaster o tap br) as [err|]; cbn; flatten_trace;
      released.
  - intros (ns & a & Hns & Ha & Hin). unfold released_once. run.
    destruct (on_NewDnsmasq o) as [d|err]; cbn; flatten_trace;
      [|released].
    destruct (on_NewSimpleEtcd o) as [e|err]; cbn; flatten_trace;
      released.
Qed.

Lemma scope_released_exactly_once_witness :
  released_once w0 (world_after (NewTap cluster_br0 "eth0") finds_veth w0)
  /\ released_once w0 (world_after NewLocalCluster etcd_fails w0).
Proof.
  split.
  - apply (scope_released_exactly_once (OpNewTap cluster_br0 "eth0") finds_veth w0).
    reflexivity.
  - apply (scope_released_exactly_once OpNewLocalCluster etcd_fails w0).
    exists 7, agent0. repeat split; reflexivity.
Defined.

(** No path of [NewLocalCluster] closes the SSH agent. *)
Lemma NewLocalCluster_never_closes_agent (o : Collaborators) (w : World) :
  exists calls,
    trace (world_after NewLocalCluster o w) = (trace w ++ calls)%list
    /\ count is_SSHAgentClose calls = 0%nat.
Proof.
  run.
  destruct (on_NsCreate o) as [ns|err]; cbn; flatten_trace;
    [|eexists; split; reflexivity].
  destruct (on_NewSSHAgent o (NewNsDialer ns)) as [a|err]; cbn; flatten_trace;
    [|eexists; split; reflexivity].
  destruct (on_NsEnter o ns) as [err|]; cbn; flatten_trace;
    [eexists; split; reflexivity|].
  destruct (on_NewDnsmasq o) as [d|err]; cbn; flatten_trace;
    [|eexists; split; reflexivity].
  destruct (on_NewSimpleEtcd o) as [e|err]; cbn; flatten_trace;
    eexists; split; reflexivity.
Qed.

(** * Further properties of cluster.go *)

(** ** Construction, further *)

(** X1: [NewLocalCluster] returns a cluster exactly when all five fallible
    calls succeed, and the cluster then holds what those calls returned. *)
Theorem NewLocalCluster_success_iff
    (o : Collaborators) (w : World) (lc : LocalCluster) :
  result_of NewLocalCluster o w = Returned (Some lc, None)
  <-> exists ns a d e,
        on_NsCreate o = Ok ns
        /\ on_NewSSHAgent o (NewNsDialer ns) = Ok a
        /\ on_NsEnter o ns = None
        /\ on_NewDnsmasq o = Ok d
        /\ on_NewSimpleEtcd o = Ok e
        /\ lc = {| SSHAgent := Some a; Dnsmasq := Some d;
                   SimpleEtcd := Some e; nshandle := ns |}.
Proof.
  split.
  - run.
    destruct (on_NsCreate o) as [ns|err] eqn:Hns; cbn; [|discriminate].
    destruct (on_NewSSHAgent o (NewNsDialer ns)) as [a|err] eqn:Ha; cbn;
      [|discriminate].
    destruct (on_NsEnter o ns) as [err|] eqn:Hin; cbn; [discriminate|].
    destruct (on_NewDnsmasq o) as [d|err] eqn:Hd; cbn; [|discriminate].
    destruct (on_NewSimpleEtcd o) as [e|err] eqn:He; cbn; [|discriminate].
    intros H. injection H as <-. exists ns, a, d, e.
    repeat split; first [assumption | reflexivity].
  - intros (ns & a & d & e & Hns & Ha & Hin & Hd & He & ->).
    run. reflexivity.
Qed.

(** X2: when [NewLocalCluster] returns an error, it is the error of the
    first call that failed, passed on unchanged. *)
Theorem NewLocalCluster_error_is_originating
    (o : Collaborators) (w : World) (err : error) :
  result_of NewLocalCluster o w = Returned (None, Some err) ->
  on_NsCreate o = Err err
  \/ exists ns, on_NsCreate o = Ok ns
     /\ (on_NewSSHAgent o (NewNsDialer ns) = Err err
         \/ exists a, on_NewSSHAgent o (NewNsDialer ns) = Ok a
            /\ (on_NsEnter o ns = Some err
                \/ on_NsEnter o ns = None
                   /\ (on_NewDnsmasq o = Err err
                       \/ exists d, on_NewDnsmasq o = Ok d
                          /\ on_NewSimpleEtcd o = Err err))).
Proof.
  run.
  destruct (on_NsCreate o) as [ns|e0] eqn:Hns; cbn;
    [|intros H; injection H as <-; left; reflexivity].
  destruct (on_NewSSHAgent o (NewNsDialer ns)) as [a|e1] eqn:Ha; cbn;
    [|intros H; injection H as <-; eauto 10].
  destruct (on_NsEnter o ns) as [e2|] eqn:Hin; cbn;
    [intros H; injection H as <-; eauto 10|].
  destruct (on_NewDnsmasq o) as [d|e3] eqn:Hd; cbn;
    [|intros H; injection H as <-; eauto 15].
  destruct (on_NewSimpleEtcd o) as [e|e4] eqn:He; cbn;
    [discriminate|].
  intros H. injection H as <-. eauto 20.
Qed.

Lemma NewLocalCluster_error_is_originating_witness :
  on_NsCreate etcd_fails = Err "etcd: exec failed"
  \/ exists ns, on_NsCreate etcd_fails = Ok ns
     /\ (on_NewSSHAgent etcd_fails (NewNsDialer ns) = Err "etcd: exec failed"
         \/ exists a, on_NewSSHAgent etcd_fails (NewNsDialer ns) = Ok a
            /\ (on_NsEnter etcd_fails ns = Some "etcd: exec failed"
                \/ on_NsEnter etcd_fails ns = None
                   /\ (on_NewDnsmasq etcd_fails = Err "etcd: exec failed"
                       \/ exists d, on_NewDnsmasq etcd_fails = Ok d
                          /\ on_NewSimpleEtcd etcd_fails = Err "etcd: exec failed"))).
Proof.
  apply (NewLocalCluster_error_is_originating etcd_fails w0 "etcd: exec failed").
  reflexivity.
Defined.

(** X3: on every path of [NewLocalCluster], dnsmasq and etcd are started
    only inside the namespace scope, and the SSH agent only outside it. *)
Theorem NewLocalCluster_services_inside_scope (o : Collaborators) (w : World) :
  exists calls,
    trace (world_after NewLocalCluster o w) = (trace w ++ calls)%list
    /\ placed o true is_namespaced_start false calls = true
    /\ placed o false is_NewSSHAgent false calls = true.
Proof.
  run.
  destruct (on_NsCreate o) as [ns|err]; cbn; flatten_trace;
    [|eexists; repeat split].
  destruct (on_NewSSHAgent o (NewNsDialer ns)) as [a|err]; cbn; flatten_trace;
    [|eexists; repeat split].
  destruct (on_NsEnter o ns) as [err|] eqn:Hin; cbn; flatten_trace;
    [eexists; split; [reflexivity|]; cbn; rewrite ?Hin; split; reflexivity|].
  destruct (on_NewDnsmasq o) as [d|err]; cbn; flatten_trace;
    [|eexists; split; [reflexivity|]; cbn; rewrite ?Hin; split; reflexivity].
  destruct (on_NewSimpleEtcd o) as [e|err]; cbn; flatten_trace;
    eexists; (split; [reflexivity|]); cbn; rewrite ?Hin; split; reflexivity.
Qed.



(** X5: when entering the namespace fails, [NewLocalCluster] returns that
    error having released nothing: after the three calls made so far the
    namespace and the SSH agent it created are both still live. *)
Theorem NewLocalCluster_NsEnter_failure_releases_nothing
    (o : Collaborators) (w : World)
    (ns : NsHandle) (a : SSHAgent_t) (err : error) :
  on_NsCreate o = Ok ns ->
  on_NewSSHAgent o (NewNsDialer ns) = Ok a ->
  on_NsEnter o ns = Some err ->
  NewLocalCluster o w
  = (Returned (None, Some err),
     {| trace := (trace w ++ [CallNsCreate; CallNewSSHAgent (NewNsDialer ns);
                              CallNsEnter ns])%list;
        cur_ns := cur_ns w;
        live := (live w ++ [ResNamespace; ResSSHAgent])%list |}).
Proof. intros Hns Ha Hin. run. reflexivity. Qed.

Lemma NewLocalCluster_NsEnter_failure_releases_nothing_witness :
  NewLocalCluster ns_enter_fails w0
  = (Returned (None, Some "setns: operation not permitted"),
     {| trace := [CallNsCreate; CallNewSSHAgent (NewNsDialer 7); CallNsEnter 7];
        cur_ns := 1;
        live := [ResNamespace; ResSSHAgent] |}).
Proof.
  apply (NewLocalCluster_NsEnter_failure_releases_nothing ns_enter_fails w0 7
           agent0 "setns: operation not permitted");
    reflexivity.
Defined.

(** X6: when every call succeeds, a caller that builds a cluster and
    destroys it gets a nil error and sees the four components torn down in
    the reverse of the order they were created in, each teardown receiving
    what the matching start returned; no cluster resource is live
    afterwards and the thread is back in its namespace. *)
Theorem create_then_Destroy_reverse_order
    (o : Collaborators) (w : World)
    (ns : NsHandle) (a : SSHAgent_t) (d : Dnsmasq_t) (e : SimpleEtcd_t) :
  on_NsCreate o = Ok ns ->
  on_NewSSHAgent o (NewNsDialer ns) = Ok a ->
  on_NsEnter o ns = None ->
  on_NewDnsmasq o = Ok d ->
  on_NewSimpleEtcd o = Ok e ->
  on_SimpleEtcdDestroy o e = None ->
  on_DnsmasqDestroy o d = None ->
  on_SSHAgentClose o a = None ->
  on_NsHandleClose o ns = None ->
  let w' := world_after create_then_Destroy o w in
  result_of create_then_Destroy o w = Returned None
  /\
  trace w'
  = (trace w ++ [CallNsCreate; CallNewSSHAgent (NewNsDialer ns); CallNsEnter ns;
                 CallNewDnsmasq; CallNewSimpleEtcd; CallNsExit;
                 CallSimpleEtcdDestroy e; CallDnsmasqDestroy d;
                 CallSSHAgentClose a; CallNsHandleClose ns])%list
  /\ live w' = filter (fun r => negb (cluster_resource r)) (live w)
  /\ cur_ns w' = cur_ns w.
Proof.
  intros Hns Ha Hin Hd He Hse Hdm Hag Hcl w'. subst w'.
  unfold create_then_Destroy. run.
  split; [reflexivity|]. split; [reflexivity|]. split; [|reflexivity].
  induction (live w) as [|r l IH]; [reflexivity|].
  destruct r; cbn in *; rewrite ?IH; reflexivity.
Qed.

Lemma create_then_Destroy_reverse_order_witness :
  result_of create_then_Destroy all_ok w0 = Returned None
  /\ trace (world_after create_then_Destroy all_ok w0)
  = [CallNsCreate; CallNewSSHAgent (NewNsDialer 7); CallNsEnter 7;
     CallNewDnsmasq; CallNewSimpleEtcd; CallNsExit;
     CallSimpleEtcdDestroy etcd0; CallDnsmasqDestroy dnsmasq0;
     CallSSHAgentClose agent0; CallNsHandleClose 7]
  /\ live (world_after create_then_Destroy all_ok w0) = []
  /\ cur_ns (world_after create_then_Destroy all_ok w0) = 1.
Proof.
  apply (create_then_Destroy_reverse_order all_ok w0 7 agent0 dnsmasq0 etcd0);
    reflexivity.
Defined.





(** ** Endpoint resolution, further *)

(** Whenever the loop returns, it stopped at a first segment with the
    bridge name that has a lease, with etcd present. *)
Lemma EtcdEndpoint_range_returned (bridge : string) (etcd : option SimpleEtcd_t)
    (segs : list Segment) (s : string) :
  EtcdEndpoint_range bridge etcd segs = Returned s ->
  exists se pre seg post lease leases,
    etcd = Some se
    /\ segs = (pre ++ seg :: post)%list
    /\ (forall x, In x pre -> BridgeName x <> bridge)
    /\ BridgeName seg = bridge
    /\ DHCPv4 (BridgeIf seg) = lease :: leases
    /\ s = "http://" ++ Net.String (Net.IP_ lease) ++ ":" ++ Fmt.d (Port se).
Proof.
  induction segs as [|seg rest IH]; cbn [EtcdEndpoint_range]; [discriminate|].
  destruct (String.eqb_spec bridge (BridgeName seg)) as [Heq|Hne].
  - destruct (DHCPv4 (BridgeIf seg)) as [|lease leases] eqn:Hl; [discriminate|].
    destruct etcd as [se|]; [|discriminate].
    intros H. injection H as <-.
    exists se, [], seg, rest, lease, leases.
    repeat split; try reflexivity; try assumption.
    + intros x [].
    + symmetry. exact Heq.
  - intros H.
    destruct (IH H) as (se & pre & seg' & post & lease & leases
                        & He & Hs & Hpre & Hb & Hl & Hres).
    exists se, (seg :: pre), seg', post, lease, leases.
    repeat split; try assumption.
    + rewrite Hs. reflexivity.
    + intros x [<-|Hx]; [intro E; apply Hne; symmetry; exact E|apply Hpre; exact Hx].
Qed.

(** X8: [EtcdEndpoint] returns exactly when dnsmasq and etcd are set and
    some segment is named br0, the first such segment having a lease; the
    value is then http://, that segment's first leased address, a colon and
    the port of etcd.  Later leases and other segments play no part. *)
Theorem EtcdEndpoint_returns_iff (lc : LocalCluster) (s : string) :
  EtcdEndpoint lc = Returned s
  <-> exists dm se pre seg post lease leases,
        Dnsmasq lc = Some dm
        /\ SimpleEtcd lc = Some se
        /\ Segments dm = (pre ++ seg :: post)%list
        /\ (forall x, In x pre -> BridgeName x <> "br0")
        /\ BridgeName seg = "br0"
        /\ DHCPv4 (BridgeIf seg) = lease :: leases
        /\ s = "http://" ++ Net.String (Net.IP_ lease) ++ ":" ++ Fmt.d (Port se).
Proof.
  unfold EtcdEndpoint. split.
  - destruct (Dnsmasq lc) as [dm|]; [|discriminate].
    intros H. apply EtcdEndpoint_range_returned in H.
    destruct H as (se & pre & seg & post & lease & leases
                   & He & Hs & Hpre & Hb & Hl & Hres).
    exists dm, se, pre, seg, post, lease, leases. repeat split; assumption.
  - intros (dm & se & pre & seg & post & lease & leases
            & Hd & He & Hs & Hpre & Hb & Hl & ->).
    rewrite Hd, He, Hs. rewrite EtcdEndpoint_range_first by assumption.
    cbn [EtcdEndpoint_range]. rewrite Hb, String.eqb_refl, Hl. reflexivity.
Qed.

Lemma NewLocalCluster_success_iff_witness :
  result_of NewLocalCluster all_ok w0 = Returned (Some cluster_br0, None).
Proof.
  apply (proj2 (NewLocalCluster_success_iff all_ok w0 cluster_br0)).
  exists 7, agent0, dnsmasq0, etcd0. repeat split; reflexivity.
Defined.

Lemma EtcdEndpoint_returns_iff_witness :
  EtcdEndpoint (with_segments [seg_br1; seg_br0; seg_br0_unleased])
  = Returned "http://10.0.2.15:2379".
Proof.
  apply (proj2 (EtcdEndpoint_returns_iff
                  (with_segments [seg_br1; seg_br0; seg_br0_unleased])
                  "http://10.0.2.15:2379")).
  exists {| Segments := [seg_br1; seg_br0; seg_br0_unleased] |}, etcd0,
    [seg_br1], seg_br0, [seg_br0_unleased], (lease4 x0a x00 x02 x0f), [].
  repeat split; try reflexivity.
  intros x [Hx|[]]. rewrite <- Hx. simpl. discriminate.
Defined.

(** ** TAP devices, further *)

(** X9: [NewTap] ends in one of three ways: it returns the device that
    [AddLinkTap] created with a nil error, it returns a nil device with a
    non-nil error, or it panics at the type assertion.  It never returns a
    device together with an error, nor nil with nil. *)
Theorem NewTap_outcomes
    (o : Collaborators) (w : World) (lc : LocalCluster) (bridge : string) :
  (exists tap, result_of (NewTap lc bridge) o w = Returned (Some tap, None)
               /\ on_AddLinkTap o "" = Ok tap)
  \/ (exists err, result_of (NewTap lc bridge) o w = Returned (None, Some err))
  \/ result_of (NewTap lc bridge) o w = Panicked (TypeAssertion "*netlink.Bridge").
Proof.
  run.
  destruct (on_NsEnter o (nshandle lc)) as [err|]; cbn; [eauto|].
  destruct (on_AddLinkTap o "") as [tap|err]; cbn; [|eauto].
  destruct (on_LinkSetUp o tap) as [err|]; cbn; [eauto|].
  destruct (on_LinkByName o bridge) as [[br|type name]|err]; cbn; [|eauto|eauto].
  destruct (on_LinkSetMaster o tap br) as [err|]; cbn; eauto.
Qed.

(** X10: an error returned by [NewTap] is the error of [NsEnter] unchanged,
    or the error of the first step that failed inside the scope behind the
    prefix of that step: tap failed, tap up failed, bridge failed or set
    master failed. *)
Theorem NewTap_error_wrapping
    (o : Collaborators) (w : World) (lc : LocalCluster) (bridge : string)
    (err : error) :
  result_of (NewTap lc bridge) o w = Returned (None, Some err) ->
  on_NsEnter o (nshandle lc) = Some err
  \/ on_NsEnter o (nshandle lc) = None
     /\ ((exists e, on_AddLinkTap o "" = Err e /\ err = "tap failed: " ++ e)
         \/ exists tap, on_AddLinkTap o "" = Ok tap
            /\ ((exists e, on_LinkSetUp o tap = Some e
                           /\ err = "tap up failed: " ++ e)
                \/ on_LinkSetUp o tap = None
                   /\ ((exists e, on_LinkByName o bridge = Err e
                                  /\ err = "bridge failed: " ++ e)
                       \/ exists br e,
                            on_LinkByName o bridge = Ok (LinkBridge br)
                            /\ on_LinkSetMaster o tap br = Some e
                            /\ err = "set master failed: " ++ e))).
Proof.
  run.
  destruct (on_NsEnter o (nshandle lc)) as [e0|] eqn:Hin; cbn;
    [intros H; injection H as <-; left; reflexivity|].
  destruct (on_AddLinkTap o "") as [tap|e1] eqn:Htap; cbn;
    [|intros H; injection H as <-; eauto 10].
  destruct (on_LinkSetUp o tap) as [e2|] eqn:Hup; cbn;
    [intros H; injection H as <-; eauto 12|].
  destruct (on_LinkByName o bridge) as [[br|type name]|e3] eqn:Hbr; cbn;
    [|discriminate|intros H; injection H as <-; right; split; [reflexivity|];
       right; exists tap; split; [reflexivity|]; right; split; [exact Hup|];
       left; eauto].
  destruct (on_LinkSetMaster o tap br) as [e4|] eqn:Hm; cbn; [|discriminate].
  intros H. injection H as <-.
  right. split; [reflexivity|]. right. exists tap. split; [reflexivity|].
  right. split; [exact Hup|]. right. exists br, e4. repeat split. exact Hm.
Qed.

Lemma NewTap_error_wrapping_witness :
  on_NsEnter set_master_fails 7 = Some "set master failed: operation not permitted"
  \/ on_NsEnter set_master_fails 7 = None
     /\ ((exists e, on_AddLinkTap set_master_fails "" = Err e
                    /\ "set master failed: operation not permitted" = "tap failed: " ++ e)
         \/ exists tap, on_AddLinkTap set_master_fails "" = Ok tap
            /\ ((exists e, on_LinkSetUp set_master_fails tap = Some e
                           /\ "set master failed: operation not permitted"
                              = "tap up failed: " ++ e)
                \/ on_LinkSetUp set_master_fails tap = None
                   /\ ((exists e, on_LinkByName set_master_fails "br0" = Err e
                                  /\ "set master failed: operation not permitted"
                                     = "bridge failed: " ++ e)
                       \/ exists br e,
                            on_LinkByName set_master_fails "br0" = Ok (LinkBridge br)
                            /\ on_LinkSetMaster set_master_fails tap br = Some e
                            /\ "set master failed: operation not permitted"
                               = "set master failed: " ++ e))).
Proof.
  apply (NewTap_error_wrapping set_master_fails w0 cluster_br0 "br0"
           "set master failed: operation not permitted").
  reflexivity.
Defined.

(** X11: on every path of [NewTap], each netlink operation (creating the
    device, setting it up, finding the bridge, setting the master) is made
    inside the namespace scope. *)
Theorem NewTap_link_ops_inside_scope
    (o : Collaborators) (w : World) (lc : LocalCluster) (bridge : string) :
  exists calls,
    trace (world_after (NewTap lc bridge) o w) = (trace w ++ calls)%list
    /\ placed o true is_link_op false calls = true.
Proof.
  run.
  destruct (on_NsEnter o (nshandle lc)) as [err|] eqn:Hin; cbn; flatten_trace;
    [eexists; split; reflexivity|].
  destruct (on_AddLinkTap o "") as [tap|err]; cbn; flatten_trace;
    [|eexists; split; [reflexivity|cbn; rewrite Hin; reflexivity]].
  destruct (on_LinkSetUp o tap) as [err|]; cbn; flatten_trace;
    [eexists; split; [reflexivity|cbn; rewrite Hin; reflexivity]|].
  destruct (on_LinkByName o bridge) as [[br|type name]|err]; cbn; flatten_trace;
    [|eexists; split; [reflexivity|cbn; rewrite Hin; reflexivity]
     |eexists; split; [reflexivity|cbn; rewrite Hin; reflexivity]].
  destruct (on_LinkSetMaster o tap br) as [err|]; cbn; flatten_trace;
    eexists; (split; [reflexivity|cbn; rewrite Hin; reflexivity]).
Qed.

(** X12: once [AddLinkTap] has created the device, [NewTap] never removes
    it: whether it then returns the device, returns an error or panics, the
    device is still live. *)
Theorem NewTap_failure_keeps_tap
    (o : Collaborators) (w : World) (lc : LocalCluster) (bridge : string)
    (tap : TunTap) :
  on_NsEnter o (nshandle lc) = None ->
  on_AddLinkTap o "" = Ok tap ->
  In ResTap (live (world_after (NewTap lc bridge) o w)).
Proof.
  intros Hin Htap. run.
  assert (Hlive : In ResTap (live w ++ [ResTap])%list)
    by (apply in_or_app; right; left; reflexivity).
  destruct (on_LinkSetUp o tap) as [err|]; cbn; [exact Hlive|].
  destruct (on_LinkByName o bridge) as [[br|type name]|err]; cbn;
    [|exact Hlive|exact Hlive].
  destruct (on_LinkSetMaster o tap br) as [err|]; cbn; exact Hlive.
Qed.

Lemma NewTap_failure_keeps_tap_witness :
  result_of (NewTap cluster_br0 "br0") set_master_fails w0
  = Returned (None, Some "set master failed: operation not permitted")
  /\ In ResTap (live (world_after (NewTap cluster_br0 "br0") set_master_fails w0)).
Proof.
  split; [reflexivity|].
  apply (NewTap_failure_keeps_tap set_master_fails w0 cluster_br0 "br0" tap0);
    reflexivity.
Defined.

(** ** Commands, further *)

(** X13: [NewCommand] asks [NewNsCommand] once, with the cluster's
    namespace handle and the name and arguments it was given, and does
    nothing else to the world.  With an agent it returns that command with
    its name, arguments and namespace untouched; on a cluster whose agent is
    nil it panics on the nil pointer. *)
Theorem NewCommand_frame
    (o : Collaborators) (w : World) (lc : LocalCluster)
    (name : string) (arg : list string) :
  let cmd0 := on_NewNsCommand o (nshandle lc) name arg in
  world_after (NewCommand lc name arg) o w
  = log (CallNewNsCommand (nshandle lc) name arg) w
  /\ match SSHAgent lc with
     | Some agent =>
         exists cmd,
           result_of (NewCommand lc name arg) o w = Returned cmd
           /\ Name cmd = Name cmd0 /\ Args cmd = Args cmd0 /\ CmdNs cmd = CmdNs cmd0
     | None => result_of (NewCommand lc name arg) o w = Panicked NilDereference
     end.
Proof.
  intros cmd0. subst cmd0.
  unfold result_of, world_after, NewCommand, NewNsCommand, bind, ret, panic.
  cbn. destruct (SSHAgent lc) as [agent|]; cbn.
  - split; [reflexivity|]. eexists. repeat split.
  - split; reflexivity.
Qed.

(** ** Teardown, further *)

(** X14: over any sequence of results, the closure [firstErr] ends with
    the error it started with when that was non-nil, and otherwise with the
    first non-nil result: once set, the error is never replaced. *)
Theorem firstErr_keeps_first (l : list (option error)) (err : option error) :
  fold_left firstErr l err
  = match err with
    | Some e => Some e
    | None => first_error l
    end.
Proof.
  revert err. induction l as [|x l IH]; intros err; cbn [fold_left first_error].
  - destruct err; reflexivity.
  - rewrite IH. destruct err as [e|], x as [e'|]; reflexivity.
Qed.

(** X22: on no path does [NewLocalCluster] close the SSH agent or destroy
    etcd: the teardown it does on a failure is limited to dnsmasq and the
    namespace handle. *)
Theorem NewLocalCluster_teardown_is_partial (o : Collaborators) (w : World) :
  exists calls,
    trace (world_after NewLocalCluster o w) = (trace w ++ calls)%list
    /\ count is_SSHAgentClose calls = 0%nat
    /\ count is_SimpleEtcdDestroy calls = 0%nat.
Proof.
  run.
  destruct (on_NsCreate o) as [ns|err]; cbn; flatten_trace;
    [|eexists; repeat split].
  destruct (on_NewSSHAgent o (NewNsDialer ns)) as [a|err]; cbn; flatten_trace;
    [|eexists; repeat split].
  destruct (on_NsEnter o ns) as [err|]; cbn; flatten_trace;
    [eexists; repeat split|].
  destruct (on_NewDnsmasq o) as [d|err]; cbn; flatten_trace;
    [|eexists; repeat split].
  destruct (on_NewSimpleEtcd o) as [e|err]; cbn; flatten_trace;
    eexists; repeat split.
Qed.

(** * Properties of the option loop of create_disk.sh *)

Section OptionLoop.

Import CreateDisk.

Lemma Var_eqb_spec (x y : Var) : reflect (x = y) (Var_eqb x y).
Proof. destruct x, y; cbn; constructor; congruence. Qed.

Lemma Var_eqb_refl (x : Var) : Var_eqb x x = true.
Proof. destruct x; reflexivity. Qed.

Lemma last_any_default {A} (l : list A) (a d d' : A) :
  last (a :: l) d = last (a :: l) d'.
Proof.
  revert a. induction l as [|b l IH]; intros a; [reflexivity|].
  change (last (b :: l) d = last (b :: l) d'). apply IH.
Qed.

Lemma last_cons_default {A} (a d : A) (l : list A) : last (a :: l) d = last l a.
Proof.
  destruct l as [|b l]; [reflexivity|].
  change (last (b :: l) d = last (b :: l) a). apply last_any_default.
Qed.

Lemma append_empty_r (s : string) : s ++ "" = s.
Proof. induction s as [|c s IH]; cbn; [reflexivity|rewrite IH; reflexivity]. Qed.

Lemma append_assoc (s t u : string) : (s ++ t) ++ u = s ++ (t ++ u).
Proof. induction s as [|c s IH]; cbn; [reflexivity|rewrite IH; reflexivity]. Qed.

Lemma concat_empty_cons (s : string) (l : list string) :
  String.concat "" (s :: l) = s ++ String.concat "" l.
Proof. destruct l; cbn; [rewrite append_empty_r|]; reflexivity. Qed.

(** The clause a flag selects. *)
Lemma select_flag_of (x : Var) :
  select (flag_of x) clauses
  = Some (match x with extrakargs => AppendKargs | _ => SetFromNext x end).
Proof. destruct x; reflexivity. Qed.

(** A word that is no flag falls to the star. *)
Lemma select_unknown (w : string) :
  ~ In w flags -> select w clauses = Some NotUnderstoodExit10.
Proof.
  intros Hw. unfold clauses. cbn [select matches].
  repeat match goal with
         | |- context [String.eqb w ?l] =>
             destruct (String.eqb_spec w l) as [->|_];
             [exfalso; apply Hw; cbn; tauto|]
         end.
  reflexivity.
Qed.

(** The loop consumes flags with values pair by pair and goes on with
    what is left. *)
Lemma parse_words (options : list (Var * string)) :
  forall (rest : list string) (v : Vars) (k : string),
    v extrakargs = Some k ->
    exists v',
      parse (words options ++ rest) v = parse rest v'
      /\ forall x, v' x = consumed v k options x.
Proof.
  induction options as [|[x value] options IH]; intros rest v k Hk.
  - exists v. split; [reflexivity|].
    intros x. unfold consumed. destruct x; cbn; try reflexivity.
    rewrite append_empty_r. exact Hk.
  - cbn [words flat_map fst snd app]. cbn [parse].
    rewrite select_flag_of.
    destruct (Var_eqb_spec x extrakargs) as [->|Hx].
    + rewrite Hk.
      destruct (IH rest (assign extrakargs (k ++ " " ++ value) v) (k ++ " " ++ value))
        as (v' & Hparse & Hv'); [reflexivity|].
      exists v'. split; [exact Hparse|].
      intros y. rewrite Hv'. unfold consumed.
      unfold given, assign. cbn [filter fst snd Var_eqb map].
      destruct y; cbn [Var_eqb]; try reflexivity.
      rewrite concat_empty_cons, !append_assoc. reflexivity.
    + assert (Hsel : match x with extrakargs => AppendKargs | _ => SetFromNext x end
                     = SetFromNext x) by (destruct x; congruence).
      rewrite Hsel.
      destruct (IH rest (assign x value v) k) as (v' & Hparse & Hv').
      { unfold assign. destruct (Var_eqb_spec x extrakargs); [contradiction|exact Hk]. }
      exists v'. split; [exact Hparse|].
      intros y. rewrite Hv'. unfold consumed, given, assign.
      cbn [filter fst snd].
      destruct (Var_eqb_spec x y) as [<-|Hy].
      * destruct x; try contradiction; cbn [map]; rewrite last_cons_default;
          reflexivity.
      * destruct y; try reflexivity.
        destruct (Var_eqb_spec x extrakargs); [contradiction|reflexivity].
Qed.

(** Every word selects one of four kinds of clause; only the word for help
    selects usage. *)
Lemma select_cases (w : string) :
  (w = "--help" /\ select w clauses = Some UsageAndExit)
  \/ (exists x, select w clauses = Some (SetFromNext x))
  \/ select w clauses = Some AppendKargs
  \/ select w clauses = Some NotUnderstoodExit10.
Proof.
  unfold clauses. cbn [select matches].
  repeat match goal with
         | |- context [String.eqb w ?l] =>
             destruct (String.eqb_spec w l) as [->|_]; [now eauto 6|]
         end.
  now eauto 6.
Qed.

(** The checks pass when every variable they name is set and not empty. *)
Lemma check_passes_iff (rs : list (Var * string)) (v : Vars) :
  check rs v = None <-> forall x message, In (x, message) rs -> defined v x = true.
Proof.
  induction rs as [|[y m] rs IH]; cbn [check].
  - split; [intros _ x message []|reflexivity].
  - destruct (defined v y) eqn:Hy.
    + rewrite IH. split.
      * intros H x message [E|Hin]; [injection E as <- <-; exact Hy|eauto].
      * intros H x message Hin. apply (H x message). right. exact Hin.
    + split; [discriminate|].
      intros H. rewrite (H y m) in Hy; [discriminate|left; reflexivity].
Qed.

Lemma defined_ext (v v' : Vars) (x : Var) : v x = v' x -> defined v x = defined v' x.
Proof. unfold defined. intros ->. reflexivity. Qed.

(** The checks name every variable but [extrakargs]. *)
Lemma required_names (x : Var) :
  x <> extrakargs <-> exists message, In (x, message) required.
Proof.
  split.
  - intros Hx. destruct x; try contradiction; eexists; cbn; eauto 12.
  - intros [message Hin] ->. cbn in Hin.
    repeat (destruct Hin as [Hin|Hin]; [discriminate Hin|]). exact Hin.
Qed.

(** X15: for a command line of flags each followed by its value, the loop
    ends normally; every variable then holds the last value given with its
    flag, or keeps what the environment had when its flag was not given, and
    [extrakargs] holds all values of [--kargs] in order, a space before
    each. *)
Theorem parse_options_last_value_wins
    (env : Vars) (options : list (Var * string)) :
  exists v,
    parse_options env (words options) = Parsed v
    /\ forall x, v x = after_options env options x.
Proof.
  unfold parse_options.
  destruct (parse_words options [] (assign extrakargs "" env) "")
    as (v & Hparse & Hv); [reflexivity|].
  rewrite app_nil_r in Hparse.
  exists v. split; [exact Hparse|].
  intros x. rewrite Hv. unfold consumed, after_options, assign.
  destruct x; reflexivity.
Qed.

(** X16: after flags with their values, [--help] prints the usage and
    ends the script, whatever follows it on the command line. *)
Theorem parse_options_help
    (env : Vars) (options : list (Var * string)) (rest : list string) :
  parse_options env (words options ++ "--help" :: rest) = UsageExit.
Proof.
  unfold parse_options.
  destruct (parse_words options ("--help" :: rest) (assign extrakargs "" env) "")
    as (v & Hparse & _); [reflexivity|].
  rewrite Hparse. reflexivity.
Qed.

(** X17: a word that is none of the eleven flags, met where a flag is
    expected and followed by another word, ends the script with exit 10
    after the line saying that it is not understood.  The word [--] is such
    a word: it does not end the options. *)
Theorem parse_options_unknown_flag
    (env : Vars) (options : list (Var * string))
    (w next : string) (rest : list string) :
  ~ In w flags ->
  parse_options env (words options ++ w :: next :: rest)
  = NotUnderstood (w ++ "=" ++ next ++ " is not understood.").
Proof.
  intros Hw. unfold parse_options.
  destruct (parse_words options (w :: next :: rest) (assign extrakargs "" env) "")
    as (v & Hparse & _); [reflexivity|].
  rewrite Hparse. cbn [parse]. rewrite (select_unknown w Hw). reflexivity.
Qed.

Lemma parse_options_unknown_flag_witness :
  parse_options no_env (words [(disk, "/dev/vda")] ++ ["--"; "extra"; "--buildid"; "1"])
  = NotUnderstood "--=extra is not understood.".
Proof.
  apply (parse_options_unknown_flag no_env [(disk, "/dev/vda")] "--" "extra"
           ["--buildid"; "1"]).
  cbn. intros H.
  repeat (destruct H as [H|H]; [discriminate H|]). exact H.
Defined.

(** X18: a last word left without a value, be it a flag or a word the
    script does not know, ends the script on the expansion of the unset
    first parameter; only [--help] is accepted as a last word. *)
Theorem parse_options_dangling_word
    (env : Vars) (options : list (Var * string)) (w : string) :
  w <> "--help" ->
  parse_options env (words options ++ [w]) = UnboundVariable "1".
Proof.
  intros Hw. unfold parse_options.
  destruct (parse_words options [w] (assign extrakargs "" env) "")
    as (v & Hparse & Hv); [reflexivity|].
  rewrite Hparse. cbn [parse].
  destruct (select_cases w) as [[E _]|[[x ->]|[->| ->]]];
    [contradiction|reflexivity| |reflexivity].
  rewrite (Hv extrakargs). reflexivity.
Qed.

Lemma parse_options_dangling_word_witness :
  parse_options no_env (words [(disk, "/dev/vda")] ++ ["--imgid"])
  = UnboundVariable "1".
Proof.
  apply (parse_options_dangling_word no_env [(disk, "/dev/vda")] "--imgid").
  discriminate.
Defined.

(** X19: no word selects the last clause of the [case]: the star before
    it takes every word, so the [break] is never run. *)
Theorem case_break_is_dead (w : string) :
  select w clauses <> Some Break.
Proof.
  destruct (select_cases w) as [[_ ->]|[[x ->]|[->| ->]]]; discriminate.
Qed.

(** X20: after a command line of flags with values, the checks that
    follow the loop pass exactly when each of the nine variables they name
    got a value that is not empty: the last one given with its flag, or,
    for a flag never given, the one of the environment. *)
Theorem parse_then_check_passes_iff
    (env : Vars) (options : list (Var * string)) :
  exists v,
    parse_options env (words options) = Parsed v
    /\ (check required v = None
        <-> forall x, x <> extrakargs -> defined (after_options env options) x = true).
Proof.
  unfold parse_options.
  destruct (parse_words options [] (assign extrakargs "" env) "")
    as (v & Hparse & Hv); [reflexivity|].
  rewrite app_nil_r in Hparse.
  exists v. split; [exact Hparse|].
  assert (Hsame : forall x, v x = after_options env options x).
  { intros x. rewrite Hv. unfold consumed, after_options, assign.
    destruct x; reflexivity. }
  rewrite check_passes_iff. split.
  - intros H x Hx. apply required_names in Hx. destruct Hx as [message Hin].
    rewrite <- (defined_ext v _ x (Hsame x)). exact (H x message Hin).
  - intros H x message Hin.
    rewrite (defined_ext v _ x (Hsame x)). apply H.
    apply required_names. exists message. exact Hin.
Qed.

(** X21: when a check fails, the message is the one of the first variable,
    in the order of the checks, that is unset or empty; the variables
    checked before it are all set. *)
Theorem check_reports_first_missing (v : Vars) (message : string) :
  check required v = Some message
  <-> exists before x after,
        required = (before ++ (x, message) :: after)%list
        /\ defined v x = false
        /\ forall y m, In (y, m) before -> defined v y = true.
Proof.
  generalize required as rs.
  induction rs as [|[y m] rs IH]; cbn [check].
  - split; [discriminate|].
    intros (before & x & after & E & _). destruct before; discriminate E.
  - destruct (defined v y) eqn:Hy.
    + rewrite IH. split.
      * intros (before & x & after & -> & Hx & Hb).
        exists ((y, m) :: before), x, after. repeat split; [exact Hx|].
        intros y' m' [E|Hin]; [injection E as <- <-; exact Hy|eauto].
      * intros (before & x & after & E & Hx & Hb).
        destruct before as [|[y' m'] before]; cbn in E.
        -- injection E as -> -> ->. congruence.
        -- injection E as -> -> ->.
           exists before, x, after. repeat split; [exact Hx|].
           intros y'' m'' Hin. apply (Hb y'' m''). right. exact Hin.
    + split.
      * intros E. injection E as <-.
        exists [], y, rs. repeat split; [exact Hy|intros ? ? []].
      * intros (before & x & after & E & Hx & Hb).
        destruct before as [|[y' m'] before]; cbn in E.
        -- injection E as -> -> ->. reflexivity.
        -- injection E as -> -> ->.
           rewrite (Hb y' m') in Hy; [discriminate|left; reflexivity].
Qed.

Lemma check_reports_first_missing_witness :
  check required (after_options no_env [(disk, "/dev/vda"); (imgid, "fcos.qcow2")])
  = Some "--buildid must be defined".
Proof.
  apply (proj2 (check_reports_first_missing
                  (after_options no_env [(disk, "/dev/vda"); (imgid, "fcos.qcow2")])
                  "--buildid must be defined")).
  exists [(disk, "--disk must be defined")], buildid,
    [ (imgid, "--imgid must be defined");
      (ostree, "--ostree-repo must be defined");
      (ref, "--ostree-ref must be defined");
      (remote_name, "--ostree-remote must be defined");
      (grub_script, "--grub-script must be defined");
      (os_name, "--os_name must be defined");
      (save_var_subdirs, "--save_var_subdirs must be defined") ].
  repeat split; try reflexivity.
  intros y m [E|[]]. injection E as <- <-. reflexivity.
Defined.

End OptionLoop.
